(** * Slides generator front-end: credential lifecycle and generation requests

    A shallow embedding of the two pieces of logic of the web client:

    - [Auth]: the NextAuth [jwt] callback and [refreshAccessToken]
      (src/client/src/app/api/auth/[...nextauth]/route.ts, and the same code
      once more in the [authOptions] object);
    - [Layout]: the chat page, its [handleSubmit] handler and the way a
      message is rendered (src/client/src/app/layout/page.tsx).

    JavaScript values, the string built-ins the code calls and a small
    state-and-exception monad are collected in [JS]. *)

From Stdlib Require Import ZArith String Ascii List Bool Lia.
From stdpp Require Import gmap strings list pretty.

Set Warnings "-register-all".
Local Open Scope string_scope.
Local Open Scope list_scope.
Local Open Scope Z_scope.

Module JS.

(** ** Numbers

    Every number the code computes with is a millisecond timestamp or a count
    of seconds: numbers are integers, together with [NaN], the result of
    arithmetic on [undefined].  Sums and products are taken exactly, as the
    code's are while they stay within 2^53 in size, which times (at most
    8.64 * 10^15 ms) and lifetimes in seconds do. *)
Inductive num := Int (z : Z) | NaN.

Definition num_add (a b : num) : num :=
  match a, b with
  | Int x, Int y => Int (x + y)
  | _, _ => NaN
  end.

Definition num_mul (a b : num) : num :=
  match a, b with
  | Int x, Int y => Int (x * y)
  | _, _ => NaN
  end.

(** [a < b] and [a >= b]: every comparison with [NaN] is false. *)
Definition num_lt (a b : num) : bool :=
  match a, b with
  | Int x, Int y => x <? y
  | _, _ => false
  end.

Definition num_ge (a b : num) : bool :=
  match a, b with
  | Int x, Int y => y <=? x
  | _, _ => false
  end.

(** ToNumber on a property typed [number] that may be missing. *)
Definition ToNumber (v : option num) : num :=
  match v with
  | Some n => n
  | None => NaN
  end.

(** ** Values *)
Inductive jsval :=
  | JUndefined
  | JNull
  | JBool (b : bool)
  | JNum (n : num)
  | JStr (s : string)
  | JArr (items : list jsval)
  | JObj (fields : gmap string jsval).

(** ToBoolean. *)
Definition truthy (v : jsval) : bool :=
  match v with
  | JUndefined | JNull => false
  | JBool b => b
  | JNum (Int z) => negb (z =? 0)
  | JNum NaN => false
  | JStr s => negb (String.eqb s "")
  | JArr _ | JObj _ => true
  end.

(** [a ?? b]. *)
Definition nullish (a b : jsval) : jsval :=
  match a with
  | JUndefined | JNull => b
  | _ => a
  end.

(** [v.key]: reading a property of [null] or [undefined] is a TypeError
    ([None]); a primitive has no own properties; an array has no property
    with the names the code reads. *)
Definition get_prop (v : jsval) (key : string) : option jsval :=
  match v with
  | JUndefined | JNull => None
  | JObj fields => Some (default JUndefined (fields !! key))
  | _ => Some JUndefined
  end.

(** *** Numbers as text

    A number in a parsed body is the double nearest to the number written in
    the body, and prints with the fewest digits that read back as that
    double: in full, padded with zeros, up to 21 digits, and with an exponent
    beyond. *)

(** The double nearest to the integer [z > 0], ties going to the even
    significand; [None] past the largest double. *)
Definition nearest_double (z : Z) : option Z :=
  let bits := Z.log2 z + 1 in
  if bits <=? 53 then Some z
  else
    let shift := bits - 53 in
    let q := Z.shiftr z shift in
    let r := Z.land z (Z.ones shift) in
    let half := Z.shiftl 1 (shift - 1) in
    let q' := if (half <? r) || ((r =? half) && Z.odd q) then q + 1 else q in
    let d := Z.shiftl q' shift in
    if d <? 2 ^ 1024 then Some d else None.

Definition reads_back (d v : Z) : bool :=
  match nearest_double v with
  | Some d' => d' =? d
  | None => false
  end.

(** Of the two multiples of [10^e] around the double [d], the one that reads
    back as [d]; the nearer one when both do, the even one on a tie. *)
Definition shortest_at (d e : Z) : option Z :=
  let p := 10 ^ e in
  let lo := d / p * p in
  let hi := lo + p in
  match reads_back d lo, reads_back d hi with
  | true, true =>
      Some (if d - lo <? hi - d then lo
            else if hi - d <? d - lo then hi
            else if Z.even (d / p) then lo else hi)
  | true, false => Some lo
  | false, true => Some hi
  | false, false => None
  end.

(** The number with the fewest significant digits that reads back as [d]:
    the first hit from [e] trailing zeros down. *)
Fixpoint shortest (d : Z) (e : nat) : Z :=
  match shortest_at d (Z.of_nat e) with
  | Some v => v
  | None =>
      match e with
      | O => d
      | S e' => shortest d e'
      end
  end.

Fixpoint strip_zeros (s : string) : string :=
  match s with
  | "" => ""
  | String c s' =>
      match strip_zeros s' with
      | "" => if Ascii.eqb c "0" then "" else String c ""
      | rest => String c rest
      end
  end.

Definition positive_text (z : Z) : string :=
  match nearest_double z with
  | None => "Infinity"
  | Some d =>
      let digits := pretty (shortest d (String.length (pretty d) - 1)) in
      let n := String.length digits in
      if (n <=? 21)%nat then digits
      else
        match strip_zeros digits with
        | String c "" => String c ("e+" +:+ pretty (n - 1)%nat)
        | String c rest => String c ("." +:+ rest +:+ "e+" +:+ pretty (n - 1)%nat)
        | "" => digits
        end
  end.

(** Number::toString on an integer. *)
Definition number_text (z : Z) : string :=
  match z with
  | 0 => "0"
  | Zpos _ => positive_text z
  | Zneg _ => "-" +:+ positive_text (- z)
  end.

(** ToString, as a template literal applies it. *)
Fixpoint ToString (v : jsval) : string :=
  match v with
  | JUndefined => "undefined"
  | JNull => "null"
  | JBool true => "true"
  | JBool false => "false"
  | JNum (Int z) => number_text z
  | JNum NaN => "NaN"
  | JStr s => s
  | JArr items =>
      (fix join (l : list jsval) : string :=
         match l with
         | [] => ""
         | x :: l' =>
             let e := match x with
                      | JUndefined | JNull => ""
                      | _ => ToString x
                      end in
             match l' with
             | [] => e
             | _ :: _ => e +:+ "," +:+ join l'
             end
         end) items
  | JObj _ => "[object Object]"
  end.

(** ** Strings

    A string is the sequence of its UTF-8 bytes. *)

(** Number of bytes of the line terminator at the head of [s], 0 when [s]
    does not start with one: LF, CR, U+2028, U+2029. *)
Definition line_terminator (s : string) : nat :=
  match s with
  | String "010" _ | String "013" _ => 1
  | String "226" (String "128" (String "168" _))
  | String "226" (String "128" (String "169" _)) => 3
  | _ => 0
  end%nat.

(** Number of bytes of the white space character at the head of [s], line
    terminators included, as [String.prototype.trim] strips them: TAB, VT, FF,
    SP, U+00A0, U+1680, U+2000 to U+200A, U+202F, U+205F, U+3000, U+FEFF. *)
Definition white_space (s : string) : nat :=
  match s with
  | String "009" _ | String "011" _ | String "012" _ | String " " _ => 1
  | String "194" (String "160" _) => 2
  | String "225" (String "154" (String "128" _)) => 3
  | String "226" (String "128" (String c _)) =>
      if ((128 <=? N_of_ascii c) && (N_of_ascii c <=? 138) || (N_of_ascii c =? 175))%N
      then 3 else line_terminator s
  | String "226" (String "129" (String "159" _)) => 3
  | String "227" (String "128" (String "128" _)) => 3
  | String "239" (String "187" (String "191" _)) => 3
  | _ => line_terminator s
  end%nat.

Fixpoint drop_bytes (n : nat) (s : string) : string :=
  match n, s with
  | S n', String _ s' => drop_bytes n' s'
  | _, _ => s
  end.

(** [trimStart], with the length of the string as fuel: each round removes at
    least one byte. *)
Fixpoint trimStart_fuel (fuel : nat) (s : string) : string :=
  match fuel with
  | O => s
  | S fuel' =>
      match white_space s with
      | O => s
      | n => trimStart_fuel fuel' (drop_bytes n s)
      end
  end.

Definition trimStart (s : string) : string := trimStart_fuel (String.length s) s.

(** The longest suffix of [s] that is not all white space is kept whole: a
    byte is dropped from the end only as part of a white space run that
    reaches the end of the string. *)
Fixpoint trimEnd (s : string) : string :=
  match s with
  | "" => ""
  | String c s' =>
      if String.eqb (trimStart s) "" then "" else String c (trimEnd s')
  end.

Definition trim (s : string) : string := trimEnd (trimStart s).

Definition startsWith (s p : string) : bool := String.prefix p s.

(** The text after an opening parenthesis, up to the first closing one:
    what the lazy group of [/\((.*?)\)/] captures.  The dot does not match a
    line terminator. *)
Fixpoint lazy_group (s : string) : option string :=
  match s with
  | "" => None
  | String c s' =>
      if Ascii.eqb c ")" then Some ""
      else match line_terminator s with
           | O => String c <$> lazy_group s'
           | _ => None
           end
  end.

(** [s.match(/\((.*?)\)/)?.[1]]: the match starts at the leftmost opening
    parenthesis at which the group can be closed. *)
Fixpoint match_paren (s : string) : option string :=
  match s with
  | "" => None
  | String c s' =>
      if Ascii.eqb c "(" then
        match lazy_group s' with
        | Some g => Some g
        | None => match_paren s'
        end
      else match_paren s'
  end.

(** No closing parenthesis and no line terminator in [s]. *)
Fixpoint closes_only_at_end (s : string) : bool :=
  match s with
  | "" => true
  | String c s' =>
      negb (Ascii.eqb c ")") && Nat.eqb (line_terminator s) 0 && closes_only_at_end s'
  end.

(** ** Computations: state and exceptions *)
Inductive Completion (E A : Type) :=
  | Normal (a : A)
  | Throw (e : E).
Arguments Normal {E A} a.
Arguments Throw {E A} e.

Definition M (W E A : Type) : Type := W -> Completion E A * W.

Section Monad.
Context {W E : Type}.

Definition ret {A} (a : A) : M W E A := fun w => (Normal a, w).

Definition throw {A} (e : E) : M W E A := fun w => (Throw e, w).

Definition bind {A B} (c : M W E A) (k : A -> M W E B) : M W E B :=
  fun w =>
    match c w with
    | (Normal a, w') => k a w'
    | (Throw e, w') => (Throw e, w')
    end.

(** [try { c } catch (error) { h error }] *)
Definition try_catch {A} (c : M W E A) (h : E -> M W E A) : M W E A :=
  fun w =>
    match c w with
    | (Normal a, w') => (Normal a, w')
    | (Throw e, w') => h e w'
    end.

(** [try { c } finally { f }] *)
Definition try_finally {A} (c : M W E A) (f : M W E unit) : M W E A :=
  fun w =>
    match c w with
    | (r, w') =>
        match f w' with
        | (Normal _, w'') => (r, w'')
        | (Throw e, w'') => (Throw e, w'')
        end
    end.

Definition get : M W E W := fun w => (Normal w, w).
Definition modify (f : W -> W) : M W E unit := fun w => (Normal tt, f w).
End Monad.

Notation "'let*' x ':=' c 'in' k" := (bind c (fun x => k))
  (at level 10, x name, c at level 100, k at level 200).
Notation "c1 '>>' c2" := (bind c1 (fun _ => c2))
  (at level 100, c2 at level 200, right associativity).

End JS.

(** * The credential lifecycle: [refreshAccessToken] and the [jwt] callback *)
Module Auth.
Import JS.

(** The session token.  [accessTokenExpires] is read [as number] and may be
    missing; [rest] holds whatever other claims the token object carries
    (name, email, picture, sub, ...), which an object spread copies. *)
Record Token := mkToken {
  accessToken : jsval;
  accessTokenExpires : option num;
  refreshToken : jsval;
  user : jsval;
  error : jsval;
  rest : gmap string jsval
}.

(** What the identity provider hands over, at sign-in ([account]) and in the
    body of a refresh response ([refreshedTokens]); [expires_in] is a number
    of seconds, or missing. *)
Record TokenSet := mkTokenSet {
  access_token : jsval;
  expires_in : option Z;
  refresh_token : jsval
}.

Record Profile := mkProfile { sub : jsval }.

(** A call of [fetch]: the endpoint, the search parameters and the method. *)
Record Request := mkRequest {
  endpoint : string;
  searchParams : list (string * jsval);
  method : string
}.

(** [response.json()] rejects, or resolves to the parsed body; the body
    [null] is [None], and a body that has none of the three properties reads
    each of them as [undefined]. *)
Inductive JsonResult :=
  | JsonRejects
  | JsonResolves (body : option TokenSet).

Record Response := mkResponse { ok : bool; json_result : JsonResult }.

Inductive FetchResult :=
  | FetchRejects
  | FetchResolves (response : Response).

Inductive exn :=
  | FetchError
  | SyntaxError
  | TypeError
  | Thrown (body : option TokenSet).

(** The world the callback runs in: the clock ([now_at w n] is what the
    reading number [n] of [Date.now()] returns), the network ([network w n]
    answers the request number [n]), the requests sent so far, the console
    and the environment. *)
Record World := mkWorld {
  now_at : nat -> Z;
  ticks : nat;
  network : nat -> Request -> FetchResult;
  sent : list Request;
  console : list exn;
  GOOGLE_CLIENT_ID : jsval;
  GOOGLE_CLIENT_SECRET : jsval
}.

Definition tick (w : World) : World :=
  mkWorld (now_at w) (S (ticks w)) (network w) (sent w) (console w)
          (GOOGLE_CLIENT_ID w) (GOOGLE_CLIENT_SECRET w).

Definition send (req : Request) (w : World) : World :=
  mkWorld (now_at w) (ticks w) (network w) (sent w ++ [req]) (console w)
          (GOOGLE_CLIENT_ID w) (GOOGLE_CLIENT_SECRET w).

Definition log (e : exn) (w : World) : World :=
  mkWorld (now_at w) (ticks w) (network w) (sent w) (console w ++ [e])
          (GOOGLE_CLIENT_ID w) (GOOGLE_CLIENT_SECRET w).

Definition Date_now : M World exn Z :=
  fun w => (Normal (now_at w (ticks w)), tick w).

Definition fetch (req : Request) : M World exn Response :=
  fun w =>
    match network w (length (sent w)) req with
    | FetchRejects => (Throw FetchError, send req w)
    | FetchResolves response => (Normal response, send req w)
    end.

Definition json (response : Response) : M World exn (option TokenSet) :=
  match json_result response with
  | JsonRejects => throw SyntaxError
  | JsonResolves body => ret body
  end.

(** A property typed [number] that may be missing, as a value. *)
Definition number_or_undefined (n : option Z) : jsval :=
  match n with
  | Some z => JNum (Int z)
  | None => JUndefined
  end.

(** The first property read of a parsed body: a TypeError on [null]. *)
Definition properties (body : option TokenSet) : M World exn TokenSet :=
  match body with
  | None => throw TypeError
  | Some tokens => ret tokens
  end.

Definition console_error (e : exn) : M World exn unit := modify (log e).

Definition RefreshAccessTokenError : string := "RefreshAccessTokenError".

(** The request of a refresh: the token endpoint with its search parameters. *)
Definition refresh_url (env : World) (token : Token) : Request :=
  {| endpoint := "https://oauth2.googleapis.com/token";
     searchParams :=
       [("client_id", GOOGLE_CLIENT_ID env);
        ("client_secret", GOOGLE_CLIENT_SECRET env);
        ("grant_type", JStr "refresh_token");
        ("refresh_token", refreshToken token)];
     method := "POST" |}.

Definition refreshAccessToken (token : Token) : M World exn Token :=
  try_catch
    (let* env := get in
     let url := refresh_url env token in
     let* response := fetch url in
     let* refreshedTokens := json response in
     if negb (ok response) then throw (Thrown refreshedTokens)
     else
       let* tokens := properties refreshedTokens in
       let* now := Date_now in
       ret {| accessToken := access_token tokens;
              accessTokenExpires :=
                Some (num_add (Int now)
                        (num_mul (ToNumber (Int <$> expires_in tokens)) (Int 1000)));
              refreshToken := nullish (refresh_token tokens) (refreshToken token);
              user := user token;
              error := error token;
              rest := rest token |})
    (fun caught =>
       console_error caught >>
       ret {| accessToken := accessToken token;
              accessTokenExpires := accessTokenExpires token;
              refreshToken := refreshToken token;
              user := user token;
              error := JStr RefreshAccessTokenError;
              rest := rest token |}).

(** [jwt({ token, account, profile })]: [account] and [profile] are passed
    at sign-in only. *)
Definition jwt (token : Token) (account : option TokenSet) (profile : option Profile)
  : M World exn Token :=
  match account, profile with
  | Some account, Some profile =>
      let* now := Date_now in
      ret {| accessToken := access_token account;
             accessTokenExpires :=
               Some (num_add (Int now)
                       (if truthy (number_or_undefined (expires_in account))
                        then num_mul (ToNumber (Int <$> expires_in account)) (Int 1000)
                        else Int (3600 * 1000)));
             refreshToken := refresh_token account;
             user := JObj {[ "id" := sub profile ]};
             error := JUndefined;
             rest := ∅ |}
  | _, _ =>
      let* now := Date_now in
      if num_lt (Int now) (ToNumber (accessTokenExpires token)) then ret token
      else refreshAccessToken token
  end.

(** The calls of one session, in order: each is a pair of what [jwt] is given
    as [account] and [profile]. *)
Fixpoint session_calls (calls : list (option TokenSet * option Profile)) (token : Token)
  : M World exn Token :=
  match calls with
  | [] => ret token
  | (account, profile) :: calls' =>
      let* token' := jwt token account profile in
      session_calls calls' token'
  end.

(** [n] reads of the token in a row, none of them a sign-in. *)
Definition reads (n : nat) : Token -> M World exn Token :=
  session_calls (replicate n (None, None)).

Definition is_sign_in (call : option TokenSet * option Profile) : bool :=
  match call with
  | (Some _, Some _) => true
  | _ => false
  end.

(** [{ ...token, error: "RefreshAccessTokenError" }] *)
Definition with_error (token : Token) : Token :=
  {| accessToken := accessToken token;
     accessTokenExpires := accessTokenExpires token;
     refreshToken := refreshToken token;
     user := user token;
     error := JStr RefreshAccessTokenError;
     rest := rest token |}.

(** What the network answers to the next request, should it be [req]. *)
Definition answer (w : World) (req : Request) : FetchResult :=
  network w (length (sent w)) req.

(** The answers on which a refresh attempt fails: no response at all, a
    response that is not [ok], a body that does not parse, or the body
    [null]. *)
Definition refresh_fails (r : FetchResult) : bool :=
  match r with
  | FetchRejects => true
  | FetchResolves response =>
      negb (ok response) ||
      match json_result response with
      | JsonRejects | JsonResolves None => true
      | JsonResolves (Some _) => false
      end
  end.

(** The clock does not run backwards. *)
Definition clock_monotone (w : World) : Prop :=
  forall i j : nat, (i <= j)%nat -> now_at w i <= now_at w j.

(** The lifetime, in seconds, a sign-in gives the access token, from what
    the provider declares. *)
Inductive sign_in_lifetime : option Z -> Z -> Prop :=
  | lifetime_declared (seconds : Z) :
      seconds <> 0 -> sign_in_lifetime (Some seconds) seconds
  | lifetime_omitted : sign_in_lifetime None 3600
  | lifetime_zero : sign_in_lifetime (Some 0) 3600.

(** ** Sample data *)

(** A token whose access token expired at 1000 ms. *)
Definition expired_token : Token :=
  {| accessToken := JStr "ya29.old";
     accessTokenExpires := Some (Int 1000);
     refreshToken := JStr "1//refresh";
     user := JObj {[ "id" := JStr "1234" ]};
     error := JUndefined;
     rest := {[ "name" := JStr "Ada" ]} |}.

(** A world whose clock starts at [start] and gains a millisecond at each
    reading, and whose network gives every request the answer [r]. *)
Definition sample_world (start : Z) (r : FetchResult) : World :=
  {| now_at := fun n => start + Z.of_nat n;
     ticks := 0;
     network := fun _ _ => r;
     sent := [];
     console := [];
     GOOGLE_CLIENT_ID := JStr "client-id";
     GOOGLE_CLIENT_SECRET := JStr "client-secret" |}.

(** A refresh response with status 200 and a new access token. *)
Definition refreshed (lifetime : option Z) : FetchResult :=
  FetchResolves
    {| ok := true;
       json_result :=
         JsonResolves (Some {| access_token := JStr "ya29.new";
                               expires_in := lifetime;
                               refresh_token := JUndefined |}) |}.

(** A refresh response with status 400: its body, an error report, has none
    of the three properties. *)
Definition error_report : TokenSet :=
  {| access_token := JUndefined; expires_in := None; refresh_token := JUndefined |}.

Definition refused : FetchResult :=
  FetchResolves {| ok := false; json_result := JsonResolves (Some error_report) |}.

Definition sample_account (lifetime : option Z) : TokenSet :=
  {| access_token := JStr "ya29.first";
     expires_in := lifetime;
     refresh_token := JStr "1//refresh" |}.

Definition sample_profile : Profile := {| sub := JStr "1234" |}.

End Auth.

(** * The chat page: [handleSubmit] and the rendering of a message *)
Module Layout.
Import JS.

Inductive Sender := user | ai.

Record Message := mkMessage { sender : Sender; text : string }.

(** Of the session the page reads [accessToken] only. *)
Record Session := mkSession { accessToken : jsval }.

(** A call of [fetch]; [body] is the object handed to [JSON.stringify]. *)
Record Request := mkRequest {
  url : string;
  method : string;
  headers : list (string * string);
  body : list (string * jsval)
}.

(** [res.json()] rejects, or resolves to the parsed body. *)
Inductive JsonResult :=
  | JsonRejects
  | JsonResolves (data : jsval).

(** The page never reads [res.ok]: a response is its body. *)
Inductive FetchResult :=
  | FetchRejects
  | FetchResolves (res : JsonResult).

Inductive exn := FetchError | SyntaxError | TypeError.

Inductive LogEntry :=
  | console_log_entry (data : jsval)
  | console_error_entry (caught : exn).

(** The state of the page: the value of the textarea behind the [input] ref
    ([None] while the ref is [null]), the [check] and [messages] state
    variables, the session, the requests sent and the console. *)
Record Page := mkPage {
  input : option string;
  check : bool;
  messages : list Message;
  session : option Session;
  sent : list Request;
  console : list LogEntry
}.

Definition set_input_value (v : string) : M Page exn unit :=
  modify (fun p => mkPage (Some v) (check p) (messages p) (session p) (sent p) (console p)).

Definition setCheck (b : bool) : M Page exn unit :=
  modify (fun p => mkPage (input p) b (messages p) (session p) (sent p) (console p)).

Definition setMessages (f : list Message -> list Message) : M Page exn unit :=
  modify (fun p => mkPage (input p) (check p) (f (messages p)) (session p) (sent p) (console p)).

Definition fetch (req : Request) : M Page exn unit :=
  modify (fun p => mkPage (input p) (check p) (messages p) (session p) (sent p ++ [req]) (console p)).

Definition console_log (data : jsval) : M Page exn unit :=
  modify (fun p => mkPage (input p) (check p) (messages p) (session p) (sent p)
                          (console p ++ [console_log_entry data])).

Definition console_error (caught : exn) : M Page exn unit :=
  modify (fun p => mkPage (input p) (check p) (messages p) (session p) (sent p)
                          (console p ++ [console_error_entry caught])).

(** [session?.accessToken] *)
Definition session_accessToken (p : Page) : jsval :=
  match session p with
  | Some s => accessToken s
  | None => JUndefined
  end.

(** The condition of the guard that opens [handleSubmit]. *)
Definition nothing_to_submit (p : Page) : bool :=
  match input p with
  | None => true
  | Some value => String.eqb (trim value) "" || negb (truthy (session_accessToken p))
  end.

Definition success_prefix : string :=
  "Here’s your Google Slides presentation 👉 [View Presentation](".

Definition success_text (link : jsval) : string :=
  success_prefix +:+ ToString link +:+ ")".

Definition apology : string := "Sorry, I couldn’t generate your slides.".

Definition try_again : string := "Something went wrong. Try again!".

(** [handleSubmit] up to its [await fetch(...)]: the guard, the user's
    message, the flag and the request.  The result is the request the handler
    now waits for, if any. *)
Definition handleSubmit_until_await : M Page exn (option Request) :=
  let* p := get in
  match input p with
  | Some value =>
      if nothing_to_submit p then ret None
      else
        let userMessage := value in
        let token := ToString (session_accessToken p) in
        let req :=
          {| url := "http://localhost:8001/generate-presentation";
             method := "POST";
             headers := [("Content-Type", "application/json");
                         ("Authorization", "Bearer " +:+ token)];
             body := [("topic", JStr userMessage);
                      ("access_token", session_accessToken p)] |} in
        set_input_value "" >>
        setMessages (fun prev => prev ++ [mkMessage user userMessage]) >>
        setCheck true >>
        fetch req >>
        ret (Some req)
  | None => ret None
  end.

Definition await (result : FetchResult) : M Page exn JsonResult :=
  match result with
  | FetchRejects => throw FetchError
  | FetchResolves res => ret res
  end.

Definition json (res : JsonResult) : M Page exn jsval :=
  match res with
  | JsonRejects => throw SyntaxError
  | JsonResolves data => ret data
  end.

Definition property (v : jsval) (key : string) : M Page exn jsval :=
  match get_prop v key with
  | Some x => ret x
  | None => throw TypeError
  end.

(** [handleSubmit] from the moment the [fetch] settles with [result]. *)
Definition handleSubmit_after_await (result : FetchResult) : M Page exn unit :=
  try_finally
    (try_catch
       (let* res := await result in
        let* data := json res in
        console_log data >>
        let* success := property data "success" in
        let* both := if truthy success then property data "url" else ret success in
        if truthy both then
          let* link := property data "url" in
          setMessages (fun prev => prev ++ [mkMessage ai (success_text link)])
        else
          setMessages (fun prev => prev ++ [mkMessage ai apology]))
       (fun caught =>
          console_error caught >>
          setMessages (fun prev => prev ++ [mkMessage ai try_again])))
    (setCheck false).

(** One whole run of [handleSubmit], nothing else happening on the page while
    the request is out. *)
Definition handleSubmit (result : FetchResult) : M Page exn unit :=
  let* awaited := handleSubmit_until_await in
  match awaited with
  | Some _ => handleSubmit_after_await result
  | None => ret tt
  end.

(** The Send button: [onClick={handleSubmit}], [disabled={check}].  A
    disabled button dispatches no click, and the button is the only caller of
    [handleSubmit]. *)
Definition click_Send : M Page exn (option Request) :=
  let* p := get in
  if check p then ret None else handleSubmit_until_await.

(** What a message is rendered as: a link to [href], or its text. *)
Inductive Rendered :=
  | Anchor (href : string)
  | Plain (content : string).

Definition render (msg : Message) : Rendered :=
  if startsWith (text msg) "Here’s your Google Slides presentation" then
    Anchor (match match_paren (text msg) with
            | Some group => if String.eqb group "" then "#" else group
            | None => "#"
            end)
  else Plain (text msg).

(** What happens on the page: the user clicks Send, the user types into the
    textarea (which stays enabled while a request is out), the outstanding
    request settles. *)
Inductive Event :=
  | Click
  | Typing (value : string)
  | Settled (result : FetchResult).

Definition handle (ev : Event) : M Page exn unit :=
  match ev with
  | Click => click_Send >> ret tt
  | Typing value => set_input_value value
  | Settled result => handleSubmit_after_await result
  end.

Fixpoint handle_all (evs : list Event) : M Page exn unit :=
  match evs with
  | [] => ret tt
  | ev :: evs' => handle ev >> handle_all evs'
  end.

Definition is_Settled (ev : Event) : bool :=
  match ev with
  | Settled _ => true
  | _ => false
  end.

(** The page after a computation, and whether it completed normally. *)
Definition page_after {A} (c : M Page exn A) (p : Page) : Page := snd (c p).

Definition completes {A} (c : M Page exn A) (p : Page) : bool :=
  match fst (c p) with
  | Normal _ => true
  | Throw _ => false
  end.

(** ** Sample data *)

Definition signed_in : option Session := Some {| accessToken := JStr "tok123" |}.

(** Nothing sent yet, "Machine Learning" typed. *)
Definition idle_page : Page :=
  {| input := Some "Machine Learning";
     check := false;
     messages := [];
     session := signed_in;
     sent := [];
     console := [] |}.

(** A request is out, and the user has typed the next topic. *)
Definition waiting_page : Page :=
  page_after (handleSubmit_until_await >> set_input_value "Deep Learning") idle_page.

Definition generated (link : string) : jsval :=
  JObj {[ "success" := JBool true; "url" := JStr link ]}.

(** Only blanks typed. *)
Definition blank_page : Page :=
  {| input := Some "   ";
     check := false;
     messages := [];
     session := signed_in;
     sent := [];
     console := [] |}.

End Layout.

(** * The credential lifecycle: what a run of reads meets *)
Module AuthRuns.
Import JS Auth.

(** [v == null]: the values [??] replaces. *)
Definition is_nullish (v : jsval) : bool :=
  match v with
  | JUndefined | JNull => true
  | _ => false
  end.

(** The provider fails every refresh. *)
Definition always_failing (w : World) : Prop :=
  forall (n : nat) (req : Request), refresh_fails (network w n req) = true.

(** No successful refresh response declares a lifetime. *)
Definition lifetimes_omitted (w : World) : Prop :=
  forall (n : nat) (req : Request) (response : Response) (tokens : TokenSet),
    network w n req = FetchResolves response ->
    ok response = true ->
    json_result response = JsonResolves (Some tokens) ->
    expires_in tokens = None.

(** [Date.now() < token.accessTokenExpires] is false at every time: the
    expiry is missing, or [NaN]. *)
Definition expiry_unusable (token : Token) : bool :=
  match accessTokenExpires token with
  | None | Some NaN => true
  | Some (Int _) => false
  end.

(** A token whose expiry a refresh without a lifetime has turned to [NaN]. *)
Definition unusable_token : Token :=
  {| accessToken := JStr "ya29.new";
     accessTokenExpires := Some NaN;
     refreshToken := JStr "1//refresh";
     user := JObj {[ "id" := JStr "1234" ]};
     error := JUndefined;
     rest := ∅ |}.

End AuthRuns.

(** * The credential lifecycle: the [session] callback *)
Module AuthSession.
Import JS.

(** The session object the callback is given and returns: its [user]
    object, when it has one, and its other properties by name ([expires],
    and what the callback sets). *)
Record Session := mkSession {
  user : option (gmap string jsval);
  properties : gmap string jsval
}.

(** [token.user?.id] *)
Definition token_user_id (token : Auth.Token) : jsval :=
  match Auth.user token with
  | JUndefined | JNull => JUndefined
  | u => default JUndefined (get_prop u "id")
  end.

(** [session({ session, token })] *)
Definition session (s : Session) (token : Auth.Token) : Session :=
  let properties' :=
    <["error" := Auth.error token]>
      (<["accessToken" := Auth.accessToken token]> (properties s)) in
  match user s with
  | Some u =>
      if truthy (token_user_id token)
      then {| user := Some (<["id" := token_user_id token]> u);
              properties := properties' |}
      else {| user := Some u; properties := properties' |}
  | None => {| user := None; properties := properties' |}
  end.

(** The session NextAuth builds before it calls the callback. *)
Definition default_session : Session :=
  {| user := Some {[ "name" := JStr "Ada"; "email" := JStr "ada@example.org";
                     "image" := JNull ]};
     properties := {[ "expires" := JStr "2026-01-01T00:00:00.000Z" ]} |}.

End AuthSession.

(** * The chat page: conversations *)
Module Conversation.
Import JS Layout.

(** Whose turn it is after one more message: [Some true] when the user has
    spoken last and a reply is due, [Some false] when every message of the
    user has its reply, [None] once the messages have stopped alternating. *)
Definition turn (state : option bool) (m : Message) : option bool :=
  match state, sender m with
  | Some false, user => Some true
  | Some true, ai => Some false
  | _, _ => None
  end.

Definition turns (ms : list Message) : option bool := fold_left turn ms (Some false).

Definition from_user (m : Message) : bool :=
  match sender m with
  | user => true
  | ai => false
  end.

(** The page keeps its books: the messages alternate, a reply is due exactly
    while the flag is set, and the user has one message for each request. *)
Definition in_step (p : Page) : Prop :=
  turns (messages p) = Some (check p) /\
  length (List.filter from_user (messages p)) = length (sent p).

(** A page on which nothing has been said or sent. *)
Definition fresh (p : Page) : Prop :=
  check p = false /\ messages p = [] /\ sent p = [].

(** The events come in order: a request settles only while one is out. *)
Fixpoint in_order (evs : list Event) (p : Page) : bool :=
  match evs with
  | [] => true
  | ev :: evs' =>
      (if is_Settled ev then check p else true) &&
      in_order evs' (page_after (handle ev) p)
  end.

(** The bodies on which reading [data.success] throws. *)
Definition unreadable (result : FetchResult) : bool :=
  match result with
  | FetchRejects | FetchResolves JsonRejects => true
  | FetchResolves (JsonResolves (JNull | JUndefined)) => true
  | FetchResolves (JsonResolves _) => false
  end.

(** Space, tab, line feed, vertical tab, form feed, carriage return. *)
Definition ascii_blank (c : ascii) : bool :=
  match c with
  | " " | "009" | "010" | "011" | "012" | "013" => true
  | _ => false
  end%char.

Fixpoint all_blank (s : string) : bool :=
  match s with
  | "" => true
  | String c s' => ascii_blank c && all_blank s'
  end.

End Conversation.

(** * The pages and their redirects *)
Module Pages.
Import JS.

(** [useSession().status] *)
Inductive Status := loading | authenticated | unauthenticated.

(** [Home]: the server component of the root page always redirects. *)
Definition Home (session : option Layout.Session) : string :=
  match session with
  | Some _ => "/layout"
  | None => "/signup"
  end.

(** The effect of [Layout] on its session: where it pushes the router, if
    anywhere. *)
Definition Layout_effect (session : option Layout.Session) : option string :=
  let accessToken :=
    match session with
    | Some s => Layout.accessToken s
    | None => JUndefined
    end in
  if negb (truthy accessToken) then Some "/signup" else None.

(** The effect of [Signup] on the status. *)
Definition Signup_effect (status : Status) : option string :=
  match status with
  | authenticated => Some "/layout"
  | _ => None
  end.

(** What [Dashboard] does: it shows "Loading...", pushes the router and
    renders nothing, or greets the user. *)
Inductive View :=
  | Loading
  | Redirect (to : string)
  | Welcome.

Definition Dashboard (status : Status) (session : option Layout.Session) : View :=
  match status with
  | loading => Loading
  | _ =>
      match session with
      | None => Redirect "/signup"
      | Some _ => Welcome
      end
  end.

Inductive Component := HomePage | LayoutPage | SignupPage | DashboardPage.

(** Where a mounted page sends the browser, if anywhere. *)
Definition leaves (c : Component) (status : Status) (session : option Layout.Session)
  : option string :=
  match c with
  | HomePage => Some (Home session)
  | LayoutPage => Layout_effect session
  | SignupPage => Signup_effect status
  | DashboardPage =>
      match Dashboard status session with
      | Redirect to => Some to
      | _ => None
      end
  end.

(** [n] redirects in a row from page [c], with [routes] telling which page a
    path is served by; the browser stays where no redirect happens or no page
    is served. *)
Fixpoint follow (routes : string -> option Component) (n : nat) (c : Component)
    (status : Status) (session : option Layout.Session) : Component :=
  match n with
  | O => c
  | S n' =>
      match leaves c status session with
      | Some path =>
          match routes path with
          | Some c' => follow routes n' c' status session
          | None => c
          end
      | None => c
      end
  end.

(** The route table of the application, as far as the redirects go. *)
Definition app_routes (path : string) : option Component :=
  if String.eqb path "/" then Some HomePage
  else if String.eqb path "/layout" then Some LayoutPage
  else if String.eqb path "/signup" then Some SignupPage
  else None.

End Pages.

(** * The credential lifecycle: properties *)
Module AuthFacts.
Import JS Auth.

Ltac run :=
  unfold jwt, refreshAccessToken, fetch, json, properties, console_error,
    Date_now, answer, bind, try_catch, get, modify, ret, throw in *;
  simpl in *.


Lemma refreshAccessToken_failure (token : Token) (w : World) :
  refresh_fails (answer w (refresh_url w token)) = true ->
  exists w', refreshAccessToken token w = (Normal (with_error token), w') /\
             ticks w' = ticks w.
Proof.
  run. intros Hfail.
  destruct (network w (length (sent w)) (refresh_url w token)) as [|[isok [|[tokens|]]]];
    simpl in *; try destruct isok; simpl in *; try discriminate; eauto.
Qed.

Lemma refreshAccessToken_success (token : Token) (w : World) response tokens :
  answer w (refresh_url w token) = FetchResolves response ->
  ok response = true ->
  json_result response = JsonResolves (Some tokens) ->
  refreshAccessToken token w =
    (Normal {| accessToken := access_token tokens;
               accessTokenExpires :=
                 Some (num_add (Int (now_at w (ticks w)))
                         (num_mul (ToNumber (Int <$> expires_in tokens)) (Int 1000)));
               refreshToken := nullish (refresh_token tokens) (refreshToken token);
               user := user token;
               error := error token;
               rest := rest token |},
     tick (send (refresh_url w token) w)).
Proof.
  run. intros -> Hok Hjson. rewrite Hjson, Hok. reflexivity.
Qed.

Lemma jwt_read_unfold (token : Token) account profile (w : World) :
  is_sign_in (account, profile) = false ->
  jwt token account profile w =
    if num_lt (Int (now_at w (ticks w))) (ToNumber (accessTokenExpires token))
    then (Normal token, tick w)
    else refreshAccessToken token (tick w).
Proof.
  intros Hread. unfold jwt.
  destruct account, profile; try discriminate;
    unfold bind, Date_now, ret;
    destruct (num_lt _ _); reflexivity.
Qed.


Lemma session_calls_app calls1 calls2 (token : Token) (w : World) :
  session_calls (calls1 ++ calls2) token w =
    match session_calls calls1 token w with
    | (Normal token', w') => session_calls calls2 token' w'
    | (Throw e, w') => (Throw e, w')
    end.
Proof.
  revert token w. induction calls1 as [|[account profile] calls1 IH]; intros token w.
  - reflexivity.
  - simpl. unfold bind. destruct (jwt token account profile w) as [[token'|e] w'].
    + apply IH.
    + reflexivity.
Qed.

Lemma reads_S (k : nat) (token : Token) (w : World) :
  reads (S k) token w =
    match jwt token None None w with
    | (Normal token', w') => reads k token' w'
    | (Throw e, w') => (Throw e, w')
    end.
Proof. reflexivity. Qed.

(** ** Sample runs *)

Example refresh_after_expiry :
  exists w',
    jwt expired_token None None (sample_world 2000 (refreshed (Some 3600))) =
      (Normal {| accessToken := JStr "ya29.new";
                 accessTokenExpires := Some (Int 3602001);
                 refreshToken := JStr "1//refresh";
                 user := user expired_token;
                 error := JUndefined;
                 rest := rest expired_token |}, w') /\
    length (sent w') = 1%nat.
Proof. eexists. split; reflexivity. Qed.

Example refresh_refused :
  exists w',
    jwt expired_token None None (sample_world 2000 refused) =
      (Normal (with_error expired_token), w') /\
    console w' = [Thrown (Some error_report)].
Proof. eexists. split; reflexivity. Qed.

(** ** The transitions of the token *)

(** C2: when a refresh attempt fails (the request is rejected, the response
    is not a success, or its body cannot be read), [refreshAccessToken]
    returns the token with [error] set to the tag "RefreshAccessTokenError"
    and with the [accessToken] and [refreshToken] it had before. *)
Theorem refresh_failure_preserves_tokens (token : Token) (w : World) :
  refresh_fails (answer w (refresh_url w token)) = true ->
  exists token' w',
    refreshAccessToken token w = (Normal token', w') /\
    error token' = JStr "RefreshAccessTokenError" /\
    accessToken token' = accessToken token /\
    refreshToken token' = refreshToken token.
Proof.
  intros Hfail.
  destruct (refreshAccessToken_failure token w Hfail) as (w' & Hrun & _).
  exists (with_error token), w'. repeat split. exact Hrun.
Qed.

Lemma refresh_failure_preserves_tokens_witness :
  refresh_fails (answer (sample_world 2000 refused)
                   (refresh_url (sample_world 2000 refused) expired_token)) = true /\
  exists token' w',
    refreshAccessToken expired_token (sample_world 2000 refused) = (Normal token', w') /\
    error token' = JStr "RefreshAccessTokenError" /\
    accessToken token' = accessToken expired_token /\
    refreshToken token' = refreshToken expired_token.
Proof.
  split; [reflexivity|].
  apply (refresh_failure_preserves_tokens expired_token (sample_world 2000 refused)).
  reflexivity.
Defined.




(** C4: a read of the token ([jwt] without a sign-in) at a time strictly
    before [accessTokenExpires] returns the stored token itself and sends no
    request. *)
Theorem valid_token_read_is_noop
    (token : Token) account profile (w : World) (expires : Z) :
  is_sign_in (account, profile) = false ->
  accessTokenExpires token = Some (Int expires) ->
  now_at w (ticks w) < expires ->
  exists w',
    jwt token account profile w = (Normal token, w') /\
    sent w' = sent w.
Proof.
  intros Hread Hexp Hnow. rewrite jwt_read_unfold by assumption.
  rewrite Hexp. simpl.
  apply Z.ltb_lt in Hnow. rewrite Hnow.
  exists (tick w). split; reflexivity.
Qed.

Lemma valid_token_read_is_noop_witness :
  exists w',
    jwt expired_token None None (sample_world 500 FetchRejects)
      = (Normal expired_token, w') /\
    sent w' = sent (sample_world 500 FetchRejects).
Proof.
  apply (valid_token_read_is_noop expired_token None None
           (sample_world 500 FetchRejects) 1000).
  - reflexivity.
  - reflexivity.
  - simpl. lia.
Defined.

(** C7: the code breaks the claim for a declared lifetime of 0 seconds.  The
    sign-in tests [account.expires_in] for truthiness, so that 0 is taken for
    no lifetime at all: the handshake at 5000 ms gives a token that expires at
    5000 + 3600 * 1000 ms, not at 5000 + 0 * 1000 ms. *)
Lemma sign_in_expiry_zero_lifetime :
  exists token' w',
    jwt expired_token (Some (sample_account (Some 0))) (Some sample_profile)
        (sample_world 5000 FetchRejects) = (Normal token', w') /\
    accessTokenExpires token' = Some (Int (5000 + 3600 * 1000)) /\
    accessTokenExpires token' <> Some (Int (5000 + 0 * 1000)).
Proof.
  eexists _, _. split; [reflexivity|]. simpl. split; [reflexivity | discriminate].
Qed.

(** The refresh, for its part, takes a lifetime of 0 seconds as it is
    declared: the token refreshed at 2001 ms expires at 2001 + 0 * 1000 ms. *)
Example refresh_with_zero_lifetime :
  exists token' w',
    jwt expired_token None None (sample_world 2000 (refreshed (Some 0)))
      = (Normal token', w') /\
    accessTokenExpires token' = Some (Int (2001 + 0 * 1000)).
Proof. eexists _, _. split; reflexivity. Qed.

(** With a declared lifetime that is not 0, and with none, the sign-in does
    what the claim says. *)
Example sign_in_with_lifetime :
  exists token' w',
    jwt expired_token (Some (sample_account (Some 1800))) (Some sample_profile)
        (sample_world 5000 FetchRejects) = (Normal token', w') /\
    accessTokenExpires token' = Some (Int (5000 + 1800 * 1000)).
Proof. eexists _, _. split; reflexivity. Qed.

Example sign_in_without_lifetime :
  exists token' w',
    jwt expired_token (Some (sample_account None)) (Some sample_profile)
        (sample_world 5000 FetchRejects) = (Normal token', w') /\
    accessTokenExpires token' = Some (Int (5000 + 3600 * 1000)).
Proof. eexists _, _. split; reflexivity. Qed.

Lemma sample_world_clock_monotone (start : Z) (r : FetchResult) :
  clock_monotone (sample_world start r).
Proof. intros i j Hij. simpl. lia. Qed.

(** C8: the code breaks the claim when a successful refresh response
    declares no lifetime.  The refresh has no default for a missing
    [expires_in], where the sign-in has one: the token that expired at
    1000 ms is refreshed at 2000 ms, the new access token is stored and no
    error is set, and the new expiry is [NaN], which is not greater than or
    equal to the old one. *)
Lemma refresh_without_lifetime_loses_expiry :
  exists token' w',
    jwt expired_token None None (sample_world 2000 (refreshed None))
      = (Normal token', w') /\
    accessToken token' = JStr "ya29.new" /\
    error token' = JUndefined /\
    accessTokenExpires token' = Some NaN /\
    num_ge (ToNumber (accessTokenExpires token'))
           (ToNumber (accessTokenExpires expired_token)) = false.
Proof.
  eexists _, _. split; [reflexivity|]. simpl. repeat split.
Qed.

(** A lifetime that is declared and not negative moves the expiry forward;
    a negative one moves it back, from 1000 to -1999. *)
Example refresh_with_lifetime :
  exists token' w',
    jwt expired_token None None (sample_world 2000 (refreshed (Some 3600)))
      = (Normal token', w') /\
    accessTokenExpires token' = Some (Int (2001 + 3600 * 1000)).
Proof. eexists _, _. split; reflexivity. Qed.

Example refresh_with_negative_lifetime :
  exists token' w',
    jwt expired_token None None (sample_world 1000 (refreshed (Some (-3))))
      = (Normal token', w') /\
    accessTokenExpires token' = Some (Int (-1999)).
Proof.
  eexists _, _. split; [reflexivity|]. reflexivity.
Qed.

End AuthFacts.


(** * Strings: the link pattern *)
Module StringFacts.
Import JS.

Lemma line_terminator_before_paren (c : ascii) (s t : string) :
  line_terminator (String c s) = 0%nat ->
  line_terminator (String c (s +:+ String ")" t)) = 0%nat.
Proof.
  destruct s as [|c2 [|c3 s]]; simpl.
  - destruct c as [[] [] [] [] [] [] [] []]; intros H; solve [reflexivity | exact H].
  - destruct c as [[] [] [] [] [] [] [] []]; intros H;
      try solve [reflexivity | exact H];
      destruct c2 as [[] [] [] [] [] [] [] []]; solve [reflexivity | exact H].
  - intros H. exact H.
Qed.

Lemma lazy_group_closes (s t : string) :
  closes_only_at_end s = true ->
  lazy_group (s +:+ String ")" t) = Some s.
Proof.
  induction s as [|c s IH]; intros Hok.
  - reflexivity.
  - cbn [closes_only_at_end] in Hok.
    apply andb_prop in Hok as [Hok Hrest]. apply andb_prop in Hok as [Hc Hlt].
    apply negb_true_iff in Hc. apply Nat.eqb_eq in Hlt.
    change (String c s +:+ String ")" t) with (String c (s +:+ String ")" t)).
    cbn [lazy_group]. rewrite Hc.
    rewrite (line_terminator_before_paren c s t Hlt).
    rewrite (IH Hrest). reflexivity.
Qed.

(** ** Numbers as text *)

Example number_text_safe : number_text 9007199254740991 = "9007199254740991".
Proof. vm_compute. reflexivity. Qed.

Example number_text_rounds : number_text 9007199254740993 = "9007199254740992".
Proof. vm_compute. reflexivity. Qed.

Example number_text_pads : number_text (2 ^ 60) = "1152921504606847000".
Proof. vm_compute. reflexivity. Qed.

Example number_text_exponent :
  ToString (JNum (Int (10 ^ 21))) = "1e+21" /\
  ToString (JNum (Int (2 ^ 70))) = "1.1805916207174113e+21" /\
  ToString (JNum (Int (- 10 ^ 25))) = "-1e+25".
Proof. vm_compute. repeat split. Qed.

Example number_text_overflow : number_text (10 ^ 309) = "Infinity".
Proof. vm_compute. reflexivity. Qed.

(** Up to 2^53 a number prints as it is written. *)
Lemma nearest_double_safe (z : Z) : 0 < z < 2 ^ 53 -> nearest_double z = Some z.
Proof.
  intros [Hpos Hlt]. unfold nearest_double.
  assert (Hbits : Z.log2 z + 1 <= 53).
  { apply Z.log2_lt_pow2 in Hlt; lia. }
  apply Z.leb_le in Hbits. rewrite Hbits. reflexivity.
Qed.

End StringFacts.

(** * The chat page: properties *)
Module LayoutFacts.
Import JS Layout.

Ltac run :=
  unfold handleSubmit, click_Send, handleSubmit_until_await, handleSubmit_after_await,
    try_finally, try_catch, bind, await, json, property, console_log, console_error,
    setMessages, setCheck, set_input_value, fetch, get, modify, ret, throw,
    page_after, completes in *;
  simpl in *.

(** The request [handleSubmit] sends for [topic] on page [p]. *)
Lemma until_await_sends (p : Page) (topic : string) :
  input p = Some topic ->
  nothing_to_submit p = false ->
  exists req,
    handleSubmit_until_await p =
      (Normal (Some req),
       {| input := Some "";
          check := true;
          messages := messages p ++ [mkMessage user topic];
          session := session p;
          sent := sent p ++ [req];
          console := console p |}) /\
    body req = [("topic", JStr topic); ("access_token", session_accessToken p)].
Proof.
  intros Hin Hgo. run. rewrite Hin, Hgo. simpl. eauto.
Qed.

Lemma until_await_rejects (p : Page) :
  nothing_to_submit p = true ->
  handleSubmit_until_await p = (Normal None, p).
Proof.
  intros Hstop. run. destruct (input p); [rewrite Hstop|]; reflexivity.
Qed.

(** Whatever the request settles with, the handler completes, appends one
    reply and clears the flag; a rejected [fetch] or an unreadable body gives
    the "try again" reply. *)
Lemma after_await_settles (result : FetchResult) (q : Page) :
  exists reply log,
    handleSubmit_after_await result q =
      (Normal tt,
       {| input := input q;
          check := false;
          messages := messages q ++ [mkMessage ai reply];
          session := session q;
          sent := sent q;
          console := console q ++ log |}) /\
    (result = FetchRejects \/ result = FetchResolves JsonRejects -> reply = try_again).
Proof.
  destruct result as [|[|data]]; run.
  - eexists _, _. split; [reflexivity | reflexivity].
  - eexists _, _. split; [reflexivity | reflexivity].
  - destruct (get_prop data "success") as [success|]; simpl.
    + destruct (truthy success) eqn:Hs; simpl.
      * destruct (get_prop data "url") as [link|]; simpl.
        -- destruct (truthy link); simpl;
             (eexists _, _; split; [rewrite <- ?app_assoc; reflexivity | intros [?|?]; discriminate]).
        -- eexists _, _. split; [rewrite <- ?app_assoc; reflexivity | intros [?|?]; discriminate].
      * rewrite Hs. simpl.
        eexists _, _. split; [rewrite <- ?app_assoc; reflexivity | intros [?|?]; discriminate].
    + eexists _, _. split; [rewrite <- ?app_assoc; reflexivity | intros [?|?]; discriminate].
Qed.

(** The reply to a body whose [success] and [url] can be read. *)
Lemma after_await_parsed (data success link : jsval) (q : Page) :
  get_prop data "success" = Some success ->
  get_prop data "url" = Some link ->
  handleSubmit_after_await (FetchResolves (JsonResolves data)) q =
    (Normal tt,
     {| input := input q;
        check := false;
        messages := messages q ++
          [mkMessage ai (if truthy success && truthy link
                         then success_text link else apology)];
        session := session q;
        sent := sent q;
        console := console q ++ [console_log_entry data] |}).
Proof.
  intros Hs Hl. run. rewrite Hs. simpl.
  destruct (truthy success) eqn:Hts; simpl.
  - rewrite Hl. simpl. destruct (truthy link); simpl; reflexivity.
  - rewrite Hts. reflexivity.
Qed.

Lemma handleSubmit_unfold (result : FetchResult) (p : Page) :
  handleSubmit result p =
    match handleSubmit_until_await p with
    | (Normal (Some _), q) => handleSubmit_after_await result q
    | (Normal None, q) => (Normal tt, q)
    | (Throw e, q) => (Throw e, q)
    end.
Proof.
  unfold handleSubmit, bind.
  destruct (handleSubmit_until_await p) as [[[req|]|e] q]; reflexivity.
Qed.

(** The prefix of a success message has one opening parenthesis, its last
    character. *)
Lemma match_paren_success_prefix (s : string) :
  match_paren (success_prefix +:+ s) =
    match lazy_group s with
    | Some group => Some group
    | None => match_paren s
    end.
Proof. reflexivity. Qed.

Lemma startsWith_success_prefix (s : string) :
  startsWith (success_prefix +:+ s) "Here’s your Google Slides presentation" = true.
Proof. reflexivity. Qed.

(** The text of a success message gives its link back, when the link has no
    closing parenthesis and no line terminator in it. *)
Lemma render_success_text (link : string) :
  link <> "" ->
  closes_only_at_end link = true ->
  render (mkMessage ai (success_text (JStr link))) = Anchor link.
Proof.
  intros Hne Hok. unfold render, success_text.
  cbn [text ToString].
  rewrite startsWith_success_prefix.
  rewrite match_paren_success_prefix.
  rewrite (StringFacts.lazy_group_closes link "" Hok).
  destruct (String.eqb_spec link ""); [contradiction | reflexivity].
Qed.

Lemma guard_passes (p : Page) (topic : string) :
  input p = Some topic ->
  trim topic <> "" ->
  truthy (session_accessToken p) = true ->
  nothing_to_submit p = false.
Proof.
  intros Hin Htopic Htoken. unfold nothing_to_submit. rewrite Hin, Htoken.
  destruct (String.eqb_spec (trim topic) ""); [contradiction | reflexivity].
Qed.

Lemma guard_passes_input (p : Page) :
  nothing_to_submit p = false -> exists topic, input p = Some topic.
Proof.
  unfold nothing_to_submit. destruct (input p) as [topic|]; [eauto | discriminate].
Qed.

(** One run of the handler on a page that passes the guard. *)
Lemma handleSubmit_runs (result : FetchResult) (p : Page) (topic : string) :
  input p = Some topic ->
  nothing_to_submit p = false ->
  exists req q,
    handleSubmit_until_await p = (Normal (Some req), q) /\
    handleSubmit result p = handleSubmit_after_await result q /\
    messages q = messages p ++ [mkMessage user topic] /\
    sent q = sent p ++ [req].
Proof.
  intros Hin Hgo.
  destruct (until_await_sends p topic Hin Hgo) as (req & Hrun & _).
  eexists _, _. split; [exact Hrun|].
  rewrite handleSubmit_unfold, Hrun. repeat split.
Qed.

(** ** The runs of section 8 of the specification *)

Example submit_declined :
  handleSubmit (FetchResolves (JsonResolves (JObj {[ "success" := JBool false ]})))
    idle_page =
    (Normal tt,
     {| input := Some "";
        check := false;
        messages := [mkMessage user "Machine Learning";
                     mkMessage ai "Sorry, I couldn’t generate your slides."];
        session := signed_in;
        sent := sent waiting_page;
        console := [console_log_entry (JObj {[ "success" := JBool false ]})] |}).
Proof. vm_compute. reflexivity. Qed.

Example submit_not_json :
  page_after (handleSubmit (FetchResolves JsonRejects)) idle_page =
    {| input := Some "";
       check := false;
       messages := [mkMessage user "Machine Learning";
                    mkMessage ai "Something went wrong. Try again!"];
       session := signed_in;
       sent := sent waiting_page;
       console := [console_error_entry SyntaxError] |}.
Proof. vm_compute. reflexivity. Qed.

Example submit_signed_out :
  handleSubmit FetchRejects
    {| input := Some "topic"; check := false; messages := [];
       session := Some {| accessToken := JStr "" |}; sent := []; console := [] |}
  = (Normal tt,
     {| input := Some "topic"; check := false; messages := [];
        session := Some {| accessToken := JStr "" |}; sent := []; console := [] |}).
Proof. reflexivity. Qed.

Example render_user_message :
  render (mkMessage user "Machine Learning") = Plain "Machine Learning".
Proof. reflexivity. Qed.

(** ** The guard of the Send button *)

(** C1: while the in-flight flag [check] is set, a submit is rejected as a
    no-op.  The Send button, the only caller of [handleSubmit], is disabled
    by the flag: whatever the user clicks and types before the outstanding
    request settles, no message is appended, no request is sent and the flag
    stays set. *)
Theorem no_submit_while_in_flight (p : Page) (evs : list Event) :
  check p = true ->
  forallb (fun ev => negb (is_Settled ev)) evs = true ->
  exists q,
    handle_all evs p = (Normal tt, q) /\
    messages q = messages p /\ sent q = sent p /\ check q = true.
Proof.
  revert p. induction evs as [|ev evs IH]; intros p Hcheck Hevs.
  - exists p. repeat split. exact Hcheck.
  - simpl in Hevs. apply andb_prop in Hevs as [Hev Hrest].
    destruct ev as [|value|result]; [| |discriminate].
    + destruct (IH p Hcheck Hrest) as (q & Hrun & Hm & Hs & Hc).
      exists q. repeat split; try assumption.
      cbn [handle_all handle]. unfold bind at 1 2. unfold click_Send, bind, get.
      rewrite Hcheck. exact Hrun.
    + set (p1 := page_after (set_input_value value) p).
      destruct (IH p1 Hcheck Hrest) as (q & Hrun & Hm & Hs & Hc).
      exists q. repeat split; try assumption.
Qed.

Lemma no_submit_while_in_flight_witness :
  exists q,
    handle_all [Click; Typing "Statistics"; Click] waiting_page = (Normal tt, q) /\
    messages q = messages waiting_page /\ sent q = sent waiting_page /\
    check q = true.
Proof.
  apply (no_submit_while_in_flight waiting_page [Click; Typing "Statistics"; Click]).
  - reflexivity.
  - reflexivity.
Defined.

(** ** The three outcomes *)

(** C5, as the code has it: a submit of a topic that is not blank, with a
    token, answered by a body with [success: true] and the link [u] as
    [url], appends two messages: the user's, with the topic as text, and a
    reply whose text is the fixed phrase followed by [u] in parentheses.  The
    page renders the reply as an anchor to [u] when [u] has no closing
    parenthesis and no line terminator in it. *)
Theorem submit_success (p : Page) (topic u : string) (data : jsval) :
  input p = Some topic ->
  trim topic <> "" ->
  truthy (session_accessToken p) = true ->
  get_prop data "success" = Some (JBool true) ->
  get_prop data "url" = Some (JStr u) ->
  u <> "" ->
  exists q reply,
    handleSubmit (FetchResolves (JsonResolves data)) p = (Normal tt, q) /\
    messages q = messages p ++ [mkMessage user topic; mkMessage ai reply] /\
    reply = "Here’s your Google Slides presentation 👉 [View Presentation]("
              +:+ u +:+ ")" /\
    (closes_only_at_end u = true -> render (mkMessage ai reply) = Anchor u).
Proof.
  intros Hin Htopic Htoken Hs Hl Hu.
  pose proof (guard_passes p topic Hin Htopic Htoken) as Hgo.
  destruct (handleSubmit_runs (FetchResolves (JsonResolves data)) p topic Hin Hgo)
    as (req & q & _ & Hrun & Hm & _).
  rewrite Hrun, (after_await_parsed data _ _ q Hs Hl).
  assert (Htruthy : truthy (JStr u) = true).
  { simpl. destruct (String.eqb_spec u ""); [contradiction | reflexivity]. }
  rewrite Htruthy. cbn [truthy andb].
  eexists _, _. split; [reflexivity|]. cbn [messages].
  rewrite Hm, <- app_assoc. repeat split.
  intros Hok. apply (render_success_text u Hu Hok).
Qed.

Lemma submit_success_witness :
  exists q reply,
    handleSubmit (FetchResolves (JsonResolves (generated "https://slides.example/abc")))
      idle_page = (Normal tt, q) /\
    messages q = messages idle_page ++
      [mkMessage user "Machine Learning"; mkMessage ai reply] /\
    reply = "Here’s your Google Slides presentation 👉 [View Presentation]("
              +:+ "https://slides.example/abc" +:+ ")" /\
    (closes_only_at_end "https://slides.example/abc" = true ->
     render (mkMessage ai reply) = Anchor "https://slides.example/abc").
Proof.
  apply (submit_success idle_page "Machine Learning" "https://slides.example/abc"
           (generated "https://slides.example/abc")).
  - reflexivity.
  - vm_compute. discriminate.
  - reflexivity.
  - reflexivity.
  - reflexivity.
  - discriminate.
Defined.

(** C5 as stated fails for a link with a closing parenthesis in it: the
    reply is rendered as an anchor to the part of the link before it. *)
Lemma link_with_parenthesis_not_extracted :
  exists q reply,
    handleSubmit (FetchResolves (JsonResolves (generated "https://slides.example/a)b")))
      idle_page = (Normal tt, q) /\
    messages q = [mkMessage user "Machine Learning"; mkMessage ai reply] /\
    render (mkMessage ai reply) = Anchor "https://slides.example/a" /\
    render (mkMessage ai reply) <> Anchor "https://slides.example/a)b".
Proof.
  eexists _, _. split; [vm_compute; reflexivity|].
  split; [reflexivity|]. split; [vm_compute; reflexivity|].
  vm_compute. discriminate.
Qed.

(** C6: when the topic is empty after trimming, or the token is absent, a
    submit does nothing: the page is left as it was, so no message is
    appended and no request is sent. *)
Theorem guarded_submit_is_noop (p : Page) (result : FetchResult) :
  (forall topic, input p = Some topic -> trim topic = "") \/
  truthy (session_accessToken p) = false ->
  handleSubmit_until_await p = (Normal None, p) /\
  handleSubmit result p = (Normal tt, p).
Proof.
  intros Hguard.
  assert (Hstop : nothing_to_submit p = true).
  { unfold nothing_to_submit. destruct (input p) as [topic|]; [|reflexivity].
    destruct Hguard as [Hblank | Htoken].
    - rewrite (Hblank topic eq_refl). reflexivity.
    - rewrite Htoken. apply orb_true_r. }
  split.
  - apply until_await_rejects, Hstop.
  - rewrite handleSubmit_unfold, (until_await_rejects p Hstop). reflexivity.
Qed.

Lemma guarded_submit_is_noop_witness :
  handleSubmit_until_await blank_page = (Normal None, blank_page) /\
  handleSubmit FetchRejects blank_page = (Normal tt, blank_page).
Proof.
  apply (guarded_submit_is_noop blank_page FetchRejects).
  left. intros topic Hin. injection Hin as <-. reflexivity.
Defined.

(** C9: a submit that sends its request completes whatever the request
    settles with, with one reply appended after the user's message and the
    in-flight flag [check] cleared; when [fetch] is rejected, or the body
    cannot be read, the reply is "Something went wrong. Try again!". *)
Theorem flag_cleared_when_settled (p : Page) (result : FetchResult) :
  nothing_to_submit p = false ->
  exists topic reply q,
    input p = Some topic /\
    handleSubmit result p = (Normal tt, q) /\
    check q = false /\
    messages q = messages p ++ [mkMessage user topic; mkMessage ai reply] /\
    (result = FetchRejects \/ result = FetchResolves JsonRejects ->
     reply = "Something went wrong. Try again!").
Proof.
  intros Hgo. destruct (guard_passes_input p Hgo) as (topic & Hin).
  destruct (handleSubmit_runs result p topic Hin Hgo) as (req & q & _ & Hrun & Hm & _).
  destruct (after_await_settles result q) as (reply & log & Hafter & Hreply).
  exists topic, reply. eexists. split; [exact Hin|].
  rewrite Hrun, Hafter. split; [reflexivity|]. cbn [check messages].
  rewrite Hm, <- app_assoc. repeat split. exact Hreply.
Qed.

Lemma flag_cleared_when_settled_witness :
  exists topic reply q,
    input idle_page = Some topic /\
    handleSubmit FetchRejects idle_page = (Normal tt, q) /\
    check q = false /\
    messages q = messages idle_page ++ [mkMessage user topic; mkMessage ai reply] /\
    (FetchRejects = FetchRejects \/ FetchRejects = FetchResolves JsonRejects ->
     reply = "Something went wrong. Try again!").
Proof.
  apply (flag_cleared_when_settled idle_page FetchRejects).
  reflexivity.
Defined.

(** C10, as the code has it: when the body of the response is not [null],
    the reply is the apology whenever [url] or [success] is falsy ([url]
    missing or empty included), and it is the success message exactly when
    both are truthy. *)
Theorem reply_to_parsed_body (p : Page) (data success link : jsval) :
  nothing_to_submit p = false ->
  get_prop data "success" = Some success ->
  get_prop data "url" = Some link ->
  exists topic reply q,
    input p = Some topic /\
    handleSubmit (FetchResolves (JsonResolves data)) p = (Normal tt, q) /\
    messages q = messages p ++ [mkMessage user topic; mkMessage ai reply] /\
    (truthy link = false -> reply = "Sorry, I couldn’t generate your slides.") /\
    (truthy success = false -> reply = "Sorry, I couldn’t generate your slides.") /\
    (reply = success_text link <-> truthy success = true /\ truthy link = true).
Proof.
  intros Hgo Hs Hl. destruct (guard_passes_input p Hgo) as (topic & Hin).
  destruct (handleSubmit_runs (FetchResolves (JsonResolves data)) p topic Hin Hgo)
    as (req & q & _ & Hrun & Hm & _).
  exists topic. eexists _, _. split; [exact Hin|].
  rewrite Hrun, (after_await_parsed data success link q Hs Hl).
  split; [reflexivity|]. cbn [messages]. rewrite Hm, <- app_assoc.
  split; [reflexivity|].
  destruct (truthy success), (truthy link); cbn [andb];
    repeat split; intros; try discriminate; try reflexivity;
    try (destruct H; discriminate).
Qed.

Lemma reply_to_parsed_body_witness :
  exists topic reply q,
    input idle_page = Some topic /\
    handleSubmit (FetchResolves (JsonResolves (JObj {[ "success" := JBool true ]})))
      idle_page = (Normal tt, q) /\
    messages q = messages idle_page ++ [mkMessage user topic; mkMessage ai reply] /\
    (truthy JUndefined = false -> reply = "Sorry, I couldn’t generate your slides.") /\
    (truthy (JBool true) = false -> reply = "Sorry, I couldn’t generate your slides.") /\
    (reply = success_text JUndefined <->
     truthy (JBool true) = true /\ truthy JUndefined = true).
Proof.
  apply (reply_to_parsed_body idle_page (JObj {[ "success" := JBool true ]})
           (JBool true) JUndefined).
  - reflexivity.
  - reflexivity.
  - reflexivity.
Defined.

(** C10 as stated fails for the body [null]: it parses and has no [url],
    and the reply is the "try again" message, not the apology. *)
Lemma null_body_is_hard_failure :
  exists q,
    handleSubmit (FetchResolves (JsonResolves JNull)) idle_page = (Normal tt, q) /\
    messages q = [mkMessage user "Machine Learning";
                  mkMessage ai "Something went wrong. Try again!"] /\
    messages q <> [mkMessage user "Machine Learning";
                   mkMessage ai "Sorry, I couldn’t generate your slides."].
Proof.
  eexists. split; [vm_compute; reflexivity|].
  split; [reflexivity | discriminate].
Qed.

End LayoutFacts.


(** * The credential lifecycle: runs of calls *)
Module AuthRunsFacts.
Import JS Auth AuthRuns.

Ltac run := AuthFacts.run.

(** What a refresh does to the world, by its answer. *)
Lemma refresh_effects (token : Token) (w : World) :
  exists token' w' errs,
    refreshAccessToken token w = (Normal token', w') /\
    sent w' = sent w ++ [refresh_url w token] /\
    console w' = console w ++ errs /\ (length errs <= 1)%nat /\
    now_at w' = now_at w /\ network w' = network w /\
    GOOGLE_CLIENT_ID w' = GOOGLE_CLIENT_ID w /\
    GOOGLE_CLIENT_SECRET w' = GOOGLE_CLIENT_SECRET w /\
    user token' = user token /\ rest token' = rest token /\
    (error token' = error token \/ error token' = JStr RefreshAccessTokenError) /\
    (is_nullish (refreshToken token) = false -> is_nullish (refreshToken token') = false).
Proof.
  run.
  destruct (network w (length (sent w)) (refresh_url w token)) as [|[isok [|[tokens|]]]];
    simpl; try destruct isok; simpl;
    try (eexists _, _, [_]; repeat split; simpl; solve [auto | lia]).
  eexists _, _, []. rewrite app_nil_r. repeat split; simpl; auto.
  intros Hold. destruct (refresh_token tokens); simpl; auto.
Qed.

Lemma refresh_failure_effects (token : Token) (w : World) :
  refresh_fails (answer w (refresh_url w token)) = true ->
  exists w' e,
    refreshAccessToken token w = (Normal (with_error token), w') /\
    sent w' = sent w ++ [refresh_url w token] /\
    console w' = console w ++ [e] /\
    ticks w' = ticks w /\ now_at w' = now_at w /\ network w' = network w.
Proof.
  run. intros Hfail.
  destruct (network w (length (sent w)) (refresh_url w token)) as [|[isok [|[tokens|]]]];
    simpl in *; try destruct isok; simpl in *; try discriminate;
    eexists _, _; repeat split.
Qed.

(** What one call of [jwt] does, whatever it is given. *)
Lemma jwt_effects (token : Token) account profile (w : World) :
  exists token' w' reqs errs,
    jwt token account profile w = (Normal token', w') /\
    sent w' = sent w ++ reqs /\ console w' = console w ++ errs /\
    (length errs <= length reqs)%nat /\ (length reqs <= 1)%nat /\
    now_at w' = now_at w /\ network w' = network w.
Proof.
  destruct (is_sign_in (account, profile)) eqn:Hkind.
  - destruct account as [account|], profile as [profile|]; try discriminate.
    eexists _, _, [], []. rewrite !app_nil_r.
    repeat split; simpl; auto.
  - rewrite AuthFacts.jwt_read_unfold by assumption.
    destruct (num_lt _ _).
    + exists token, (tick w), [], []. rewrite !app_nil_r. repeat split; simpl; auto.
    + destruct (refresh_effects token (tick w))
        as (t' & w' & errs & Hrun & Hsent & Hcons & Hlen & Hnow & Hnet & _).
      exists t', w', [refresh_url (tick w) token], errs.
      repeat split; simpl; auto.
Qed.

(** X1: whatever the calls of a session are, and whatever the clock and the
    network do, [jwt] never throws; the requests and the console only grow,
    with at most one request for each call and at most one logged error for
    each request. *)
Theorem session_calls_never_throw
    (calls : list (option TokenSet * option Profile)) (token : Token) (w : World) :
  exists token' w' reqs errs,
    session_calls calls token w = (Normal token', w') /\
    sent w' = sent w ++ reqs /\ console w' = console w ++ errs /\
    (length errs <= length reqs)%nat /\ (length reqs <= length calls)%nat.
Proof.
  revert token w. induction calls as [|[account profile] calls IH]; intros token w.
  - exists token, w, [], []. rewrite !app_nil_r. repeat split; simpl; auto.
  - destruct (jwt_effects token account profile w)
      as (t1 & w1 & reqs1 & errs1 & Hrun1 & Hs1 & Hc1 & Hle1 & Hone & _).
    destruct (IH t1 w1) as (t2 & w2 & reqs2 & errs2 & Hrun2 & Hs2 & Hc2 & Hle2 & Hlen2).
    exists t2, w2, (reqs1 ++ reqs2), (errs1 ++ errs2).
    simpl. unfold bind. rewrite Hrun1, Hrun2, Hs2, Hs1, Hc2, Hc1, <- !app_assoc.
    rewrite !length_app. repeat split; lia.
Qed.

(** X2: a read at a time that is not before the expiry sends exactly one
    request: a POST to the token endpoint of the provider, with the client's
    identifier and secret, the grant type "refresh_token" and the refresh
    token of the stored token. *)
Theorem expired_read_sends_one_refresh
    (token : Token) account profile (w : World) :
  is_sign_in (account, profile) = false ->
  num_lt (Int (now_at w (ticks w))) (ToNumber (accessTokenExpires token)) = false ->
  exists token' w',
    jwt token account profile w = (Normal token', w') /\
    sent w' = sent w ++
      [ {| endpoint := "https://oauth2.googleapis.com/token";
           searchParams := [("client_id", GOOGLE_CLIENT_ID w);
                            ("client_secret", GOOGLE_CLIENT_SECRET w);
                            ("grant_type", JStr "refresh_token");
                            ("refresh_token", refreshToken token)];
           method := "POST" |} ].
Proof.
  intros Hread Hexpired. rewrite AuthFacts.jwt_read_unfold by assumption.
  rewrite Hexpired.
  destruct (refresh_effects token (tick w)) as (t' & w' & errs & Hrun & Hsent & _).
  exists t', w'. split; [exact Hrun | exact Hsent].
Qed.

Lemma expired_read_sends_one_refresh_witness :
  exists token' w',
    jwt expired_token None None (sample_world 2000 refused) = (Normal token', w') /\
    sent w' = sent (sample_world 2000 refused) ++
      [ {| endpoint := "https://oauth2.googleapis.com/token";
           searchParams := [("client_id", JStr "client-id");
                            ("client_secret", JStr "client-secret");
                            ("grant_type", JStr "refresh_token");
                            ("refresh_token", JStr "1//refresh")];
           method := "POST" |} ].
Proof.
  apply (expired_read_sends_one_refresh expired_token None None
           (sample_world 2000 refused)).
  - reflexivity.
  - reflexivity.
Defined.

Lemma jwt_read_frame (token : Token) account profile (w : World) :
  is_sign_in (account, profile) = false ->
  exists token' w',
    jwt token account profile w = (Normal token', w') /\
    user token' = user token /\ rest token' = rest token /\
    (error token' = error token \/ error token' = JStr RefreshAccessTokenError) /\
    (is_nullish (refreshToken token) = false -> is_nullish (refreshToken token') = false).
Proof.
  intros Hread. rewrite AuthFacts.jwt_read_unfold by assumption.
  destruct (num_lt _ _).
  - exists token, (tick w). repeat split; auto.
  - destruct (refresh_effects token (tick w))
      as (t' & w' & errs & Hrun & _ & _ & _ & _ & _ & _ & _ & Hu & Hr & He & Hrt).
    exists t', w'. repeat split; auto.
Qed.

(** X3: reads never lose the refresh token: a token whose refresh token is
    neither [null] nor [undefined] still has one after any sequence of reads,
    whether the refreshes on the way succeed, fail, rotate the refresh token
    or leave it out. *)
Theorem refresh_token_never_lost
    (calls : list (option TokenSet * option Profile)) (token : Token) (w : World) :
  forallb (fun call => negb (is_sign_in call)) calls = true ->
  is_nullish (refreshToken token) = false ->
  exists token' w',
    session_calls calls token w = (Normal token', w') /\
    is_nullish (refreshToken token') = false.
Proof.
  revert token w. induction calls as [|[account profile] calls IH];
    intros token w Hreads Hhas.
  - exists token, w. split; [reflexivity | exact Hhas].
  - simpl in Hreads. apply andb_prop in Hreads as [Hread Hrest].
    apply negb_true_iff in Hread.
    destruct (jwt_read_frame token account profile w Hread)
      as (t1 & w1 & Hrun1 & _ & _ & _ & Hkeep).
    destruct (IH t1 w1 Hrest (Hkeep Hhas)) as (t2 & w2 & Hrun2 & Hhas2).
    exists t2, w2. simpl. unfold bind. rewrite Hrun1. split; assumption.
Qed.

Lemma refresh_token_never_lost_witness :
  exists token' w',
    session_calls [(None, None); (None, None)] expired_token
      (sample_world 2000 (refreshed None)) = (Normal token', w') /\
    is_nullish (refreshToken token') = false.
Proof.
  apply (refresh_token_never_lost [(None, None); (None, None)] expired_token
           (sample_world 2000 (refreshed None))).
  - reflexivity.
  - reflexivity.
Defined.

(** X4: reads never change who the token is about: after any sequence of
    reads the [user] object and the other claims of the token are the ones it
    had, and [error] is the one it had or the tag of a failed refresh. *)
Theorem reads_keep_identity
    (calls : list (option TokenSet * option Profile)) (token : Token) (w : World) :
  forallb (fun call => negb (is_sign_in call)) calls = true ->
  exists token' w',
    session_calls calls token w = (Normal token', w') /\
    user token' = user token /\ rest token' = rest token /\
    (error token' = error token \/ error token' = JStr "RefreshAccessTokenError").
Proof.
  revert token w. induction calls as [|[account profile] calls IH];
    intros token w Hreads.
  - exists token, w. repeat split; auto.
  - simpl in Hreads. apply andb_prop in Hreads as [Hread Hrest].
    apply negb_true_iff in Hread.
    destruct (jwt_read_frame token account profile w Hread)
      as (t1 & w1 & Hrun1 & Hu1 & Hr1 & He1 & _).
    destruct (IH t1 w1 Hrest) as (t2 & w2 & Hrun2 & Hu2 & Hr2 & He2).
    exists t2, w2. simpl. unfold bind. rewrite Hrun1.
    repeat split; try congruence.
    destruct He2 as [He2|He2]; [rewrite He2; exact He1 | right; exact He2].
Qed.

Lemma reads_keep_identity_witness :
  exists token' w',
    session_calls [(None, None); (None, None)] expired_token
      (sample_world 2000 refused) = (Normal token', w') /\
    user token' = user expired_token /\ rest token' = rest expired_token /\
    (error token' = error expired_token \/
     error token' = JStr "RefreshAccessTokenError").
Proof.
  apply (reads_keep_identity [(None, None); (None, None)] expired_token
           (sample_world 2000 refused)).
  reflexivity.
Defined.

Lemma with_error_twice (token : Token) :
  with_error (with_error token) = with_error token.
Proof. reflexivity. Qed.

Lemma reads_while_failing (n : nat) (token : Token) (w : World) (expires : Z) :
  always_failing w ->
  clock_monotone w ->
  accessTokenExpires token = Some (Int expires) ->
  expires <= now_at w (ticks w) ->
  exists w',
    reads n token w = (Normal (if n is O then token else with_error token), w') /\
    length (sent w') = (length (sent w) + n)%nat /\
    length (console w') = (length (console w) + n)%nat.
Proof.
  revert token w. induction n as [|n IH]; intros token w Hfail Hclock Hexp Hnow.
  - exists w. repeat split; simpl; lia.
  - rewrite AuthFacts.reads_S, AuthFacts.jwt_read_unfold by reflexivity.
    rewrite Hexp. simpl.
    apply Z.ltb_ge in Hnow. rewrite Hnow. apply Z.ltb_ge in Hnow.
    destruct (refresh_failure_effects token (tick w) (Hfail _ _))
      as (w1 & e & Hrun & Hsent & Hcons & Hticks & Hclk & Hnet).
    rewrite Hrun.
    assert (Hfail1 : always_failing w1).
    { unfold always_failing. rewrite Hnet. exact Hfail. }
    assert (Hclock1 : clock_monotone w1).
    { unfold clock_monotone. rewrite Hclk. exact Hclock. }
    assert (Hnow1 : expires <= now_at w1 (ticks w1)).
    { rewrite Hclk, Hticks. simpl.
      pose proof (Hclock (ticks w) (S (ticks w)) ltac:(lia)). lia. }
    destruct (IH (with_error token) w1 Hfail1 Hclock1 Hexp Hnow1)
      as (w2 & Hrun2 & Hsent2 & Hcons2).
    exists w2. split.
    + rewrite Hrun2. destruct n; reflexivity.
    + rewrite Hsent2, Hcons2, Hsent, Hcons, !length_app. simpl. lia.
Qed.

(** X5: a failed refresh is not final.  While the provider fails every
    refresh, each read of an expired token, on a clock that does not run
    backwards, sends one more request and logs one more error; the token
    stays the old one with the error tag. *)
Theorem failing_provider_is_asked_again
    (n : nat) (token : Token) (w : World) (expires : Z) :
  always_failing w ->
  clock_monotone w ->
  accessTokenExpires token = Some (Int expires) ->
  expires <= now_at w (ticks w) ->
  exists w',
    reads (S n) token w = (Normal (with_error token), w') /\
    length (sent w') = (length (sent w) + S n)%nat /\
    length (console w') = (length (console w) + S n)%nat.
Proof.
  intros Hfail Hclock Hexp Hnow.
  exact (reads_while_failing (S n) token w expires Hfail Hclock Hexp Hnow).
Qed.

Lemma failing_provider_is_asked_again_witness :
  exists w',
    reads 3 expired_token (sample_world 2000 refused)
      = (Normal (with_error expired_token), w') /\
    length (sent w') = (length (sent (sample_world 2000 refused)) + 3)%nat /\
    length (console w') = (length (console (sample_world 2000 refused)) + 3)%nat.
Proof.
  apply (failing_provider_is_asked_again 2 expired_token
           (sample_world 2000 refused) 1000).
  - intros n req. reflexivity.
  - apply AuthFacts.sample_world_clock_monotone.
  - reflexivity.
  - simpl. lia.
Defined.

Lemma unusable_expiry_never_valid (token : Token) (now : Z) :
  expiry_unusable token = true ->
  num_lt (Int now) (ToNumber (accessTokenExpires token)) = false.
Proof.
  unfold expiry_unusable. destruct (accessTokenExpires token) as [[e|]|];
    [discriminate | reflexivity | reflexivity].
Qed.

Lemma read_with_unusable_expiry (token : Token) (w : World) :
  lifetimes_omitted w ->
  expiry_unusable token = true ->
  exists token' w',
    jwt token None None w = (Normal token', w') /\
    sent w' = sent w ++ [refresh_url w token] /\
    expiry_unusable token' = true /\ network w' = network w.
Proof.
  intros Hnone Hbad. rewrite AuthFacts.jwt_read_unfold by reflexivity.
  rewrite (unusable_expiry_never_valid token _ Hbad).
  destruct (refresh_fails (answer (tick w) (refresh_url (tick w) token))) eqn:Hfail.
  - destruct (refresh_failure_effects token (tick w) Hfail)
      as (w1 & e & Hrun & Hsent & _ & _ & _ & Hnet).
    exists (with_error token), w1. repeat split; assumption.
  - unfold refresh_fails in Hfail.
    destruct (answer (tick w) (refresh_url (tick w) token)) as [|response] eqn:Hans;
      [discriminate|].
    destruct (ok response) eqn:Hok; [|discriminate]. simpl in Hfail.
    destruct (json_result response) as [|[tokens|]] eqn:Hjson; try discriminate.
    rewrite (AuthFacts.refreshAccessToken_success _ _ _ _ Hans Hok Hjson).
    rewrite (Hnone _ _ _ _ Hans Hok Hjson).
    eexists _, _. split; [reflexivity|]. repeat split.
Qed.

(** X6: a token whose expiry is missing or [NaN] is never taken for valid.
    As long as no successful refresh response declares a lifetime, every
    read of it sends a request, whatever the clock shows: [n] reads, [n]
    requests, and the expiry stays unusable. *)
Theorem unusable_expiry_refreshes_every_read (n : nat) (token : Token) (w : World) :
  lifetimes_omitted w ->
  expiry_unusable token = true ->
  exists token' w',
    reads n token w = (Normal token', w') /\
    length (sent w') = (length (sent w) + n)%nat /\
    expiry_unusable token' = true.
Proof.
  revert token w. induction n as [|n IH]; intros token w Hnone Hbad.
  - exists token, w. repeat split; [simpl; lia | exact Hbad].
  - destruct (read_with_unusable_expiry token w Hnone Hbad)
      as (t1 & w1 & Hrun1 & Hsent1 & Hbad1 & Hnet1).
    assert (Hnone1 : lifetimes_omitted w1).
    { unfold lifetimes_omitted. rewrite Hnet1. exact Hnone. }
    destruct (IH t1 w1 Hnone1 Hbad1) as (t2 & w2 & Hrun2 & Hsent2 & Hbad2).
    exists t2, w2. rewrite AuthFacts.reads_S, Hrun1.
    repeat split; [exact Hrun2 | | exact Hbad2].
    rewrite Hsent2, Hsent1, length_app. simpl. lia.
Qed.

Lemma unusable_expiry_refreshes_every_read_witness :
  exists token' w',
    reads 4 unusable_token (sample_world 0 (refreshed None)) = (Normal token', w') /\
    length (sent w') = (length (sent (sample_world 0 (refreshed None))) + 4)%nat /\
    expiry_unusable token' = true.
Proof.
  apply (unusable_expiry_refreshes_every_read 4 unusable_token
           (sample_world 0 (refreshed None))).
  - intros n req response tokens Hnet Hok Hjson. simpl in Hnet.
    injection Hnet as <-. simpl in Hjson. injection Hjson as <-. reflexivity.
  - reflexivity.
Defined.

(** X7: the token of a sign-in is good for its lifetime: a read at a time
    before the handshake time plus the lifetime returns the very token the
    sign-in made, and sends nothing. *)
Theorem sign_in_then_read
    (token : Token) (account : TokenSet) (profile : Profile) (w : World)
    (seconds : Z) :
  sign_in_lifetime (expires_in account) seconds ->
  now_at w (S (ticks w)) < now_at w (ticks w) + seconds * 1000 ->
  exists token' w1 w2,
    jwt token (Some account) (Some profile) w = (Normal token', w1) /\
    session_calls [(Some account, Some profile); (None, None)] token w
      = (Normal token', w2) /\
    sent w2 = sent w.
Proof.
  intros Hlife Hnow.
  destruct (jwt token (Some account) (Some profile) w) as [r w1] eqn:Hsign.
  assert (Hshape : exists token',
             r = Normal token' /\ w1 = tick w /\
             accessTokenExpires token'
               = Some (Int (now_at w (ticks w) + seconds * 1000))).
  { unfold jwt, bind, Date_now, ret in Hsign. injection Hsign as <- <-.
    eexists. split; [reflexivity|]. split; [reflexivity|]. simpl.
    inversion Hlife as [s Hnz Heq | Heq | Heq]; subst; simpl.
    - apply Z.eqb_neq in Hnz. rewrite Hnz. reflexivity.
    - reflexivity.
    - reflexivity. }
  destruct Hshape as (token' & -> & -> & Hexp).
  exists token', (tick w), (tick (tick w)). split; [reflexivity|].
  change [(Some account, Some profile); (None, None)]
    with ([(Some account, Some profile)] ++ [(@None TokenSet, @None Profile)]).
  rewrite AuthFacts.session_calls_app.
  cbn [session_calls]. unfold bind at 1. rewrite Hsign. unfold ret at 1.
  unfold bind. rewrite AuthFacts.jwt_read_unfold by reflexivity.
  rewrite Hexp. cbn [ToNumber num_lt tick ticks now_at].
  apply Z.ltb_lt in Hnow. rewrite Hnow.
  split; reflexivity.
Qed.

Lemma sign_in_then_read_witness :
  exists token' w1 w2,
    jwt expired_token (Some (sample_account (Some 1800))) (Some sample_profile)
        (sample_world 5000 FetchRejects) = (Normal token', w1) /\
    session_calls [(Some (sample_account (Some 1800)), Some sample_profile);
                   (None, None)]
      expired_token (sample_world 5000 FetchRejects) = (Normal token', w2) /\
    sent w2 = sent (sample_world 5000 FetchRejects).
Proof.
  apply (sign_in_then_read expired_token (sample_account (Some 1800)) sample_profile
           (sample_world 5000 FetchRejects) 1800).
  - apply lifetime_declared. lia.
  - simpl. lia.
Defined.

End AuthRunsFacts.

(** * The [session] callback: what reaches the page *)
Module AuthSessionFacts.
Import JS AuthSession.

Lemma session_properties (s : Session) (token : Auth.Token) :
  properties (session s token) =
    <["error" := Auth.error token]>
      (<["accessToken" := Auth.accessToken token]> (properties s)).
Proof.
  unfold session. destruct (user s); [destruct (truthy _)|]; reflexivity.
Qed.

(** X8: the callback hands the page the access token and the error of the
    token and nothing else of it: every other property of the session is as
    it came in (so the refresh token and the expiry are not copied), a
    session without a [user] object gets none, and of a [user] object only
    [id] can change. *)
Theorem session_exposes_token_and_error_only (s : Session) (token : Auth.Token) :
  properties (session s token) !! "accessToken" = Some (Auth.accessToken token) /\
  properties (session s token) !! "error" = Some (Auth.error token) /\
  (forall key, key <> "accessToken" -> key <> "error" ->
     properties (session s token) !! key = properties s !! key) /\
  (user s = None -> user (session s token) = None) /\
  (forall u, user s = Some u ->
     exists u', user (session s token) = Some u' /\
                forall key, key <> "id" -> u' !! key = u !! key).
Proof.
  rewrite session_properties. repeat split.
  - rewrite lookup_insert_ne by discriminate. apply lookup_insert_eq.
  - apply lookup_insert_eq.
  - intros key Ha He. rewrite !lookup_insert_ne by congruence. reflexivity.
  - intros Hnone. unfold session. rewrite Hnone. reflexivity.
  - intros u Hu. unfold session. rewrite Hu.
    destruct (truthy (token_user_id token)); eexists; (split; [reflexivity|]).
    + intros key Hkey. rewrite lookup_insert_ne by congruence. reflexivity.
    + reflexivity.
Qed.

Lemma session_exposes_token_and_error_only_witness :
  properties (session default_session Auth.expired_token) !! "accessToken"
    = Some (JStr "ya29.old") /\
  properties (session default_session Auth.expired_token) !! "refreshToken" = None /\
  properties (session default_session Auth.expired_token) !! "accessTokenExpires"
    = None.
Proof.
  destruct (session_exposes_token_and_error_only default_session Auth.expired_token)
    as (Htoken & _ & Hframe & _).
  split; [exact Htoken|].
  split; (rewrite Hframe by discriminate; reflexivity).
Defined.

(** X9: after a read whose refresh failed, the page sees the error tag next
    to the access token from before the attempt. *)
Theorem session_after_failed_refresh
    (s : Session) (token : Auth.Token) account profile (w : Auth.World) :
  Auth.is_sign_in (account, profile) = false ->
  num_lt (Int (Auth.now_at w (Auth.ticks w)))
         (ToNumber (Auth.accessTokenExpires token)) = false ->
  Auth.refresh_fails
    (Auth.network w (length (Auth.sent w)) (Auth.refresh_url w token)) = true ->
  exists token' w',
    Auth.jwt token account profile w = (Normal token', w') /\
    properties (session s token') !! "error"
      = Some (JStr "RefreshAccessTokenError") /\
    properties (session s token') !! "accessToken"
      = Some (Auth.accessToken token).
Proof.
  intros Hread Hexpired Hfail.
  rewrite AuthFacts.jwt_read_unfold by assumption. rewrite Hexpired.
  destruct (AuthFacts.refreshAccessToken_failure token (Auth.tick w) Hfail)
    as (w' & Hrun & _).
  exists (Auth.with_error token), w'. split; [exact Hrun|].
  rewrite session_properties. split.
  - apply lookup_insert_eq.
  - rewrite lookup_insert_ne by discriminate. apply lookup_insert_eq.
Qed.

Lemma session_after_failed_refresh_witness :
  exists token' w',
    Auth.jwt Auth.expired_token None None (Auth.sample_world 2000 Auth.refused)
      = (Normal token', w') /\
    properties (session default_session token') !! "error"
      = Some (JStr "RefreshAccessTokenError") /\
    properties (session default_session token') !! "accessToken"
      = Some (Auth.accessToken Auth.expired_token).
Proof.
  apply (session_after_failed_refresh default_session Auth.expired_token None None
           (Auth.sample_world 2000 Auth.refused)).
  - reflexivity.
  - reflexivity.
  - reflexivity.
Defined.

(** X10: after a sign-in the page sees the access token of the account and
    no error, whatever the token was before; and the [user] object of the
    session, when there is one, gets the [sub] of the profile as [id] when
    that is truthy, and is left alone when it is not. *)
Theorem session_after_sign_in
    (s : Session) (token : Auth.Token) (account : Auth.TokenSet)
    (profile : Auth.Profile) (w : Auth.World) :
  exists token' w',
    Auth.jwt token (Some account) (Some profile) w = (Normal token', w') /\
    properties (session s token') !! "accessToken"
      = Some (Auth.access_token account) /\
    properties (session s token') !! "error" = Some JUndefined /\
    (forall u, user s = Some u ->
       user (session s token') =
         Some (if truthy (Auth.sub profile)
               then <["id" := Auth.sub profile]> u else u)).
Proof.
  eexists _, _. split; [reflexivity|].
  rewrite session_properties. cbn [Auth.accessToken Auth.error].
  split; [|split].
  - rewrite lookup_insert_ne by discriminate. apply lookup_insert_eq.
  - apply lookup_insert_eq.
  - intros u Hu. unfold session. rewrite Hu.
    assert (Hid : forall t,
               Auth.user t = JObj {[ "id" := Auth.sub profile ]} ->
               token_user_id t = Auth.sub profile).
    { intros t Ht. unfold token_user_id. rewrite Ht. simpl.
      rewrite lookup_singleton_eq. reflexivity. }
    rewrite Hid by reflexivity.
    destruct (truthy (Auth.sub profile)); reflexivity.
Qed.

Lemma session_after_sign_in_witness :
  exists token' w',
    Auth.jwt Auth.expired_token (Some (Auth.sample_account None))
      (Some Auth.sample_profile) (Auth.sample_world 5000 Auth.FetchRejects)
      = (Normal token', w') /\
    properties (session default_session token') !! "accessToken"
      = Some (JStr "ya29.first") /\
    properties (session default_session token') !! "error" = Some JUndefined /\
    (forall u, user default_session = Some u ->
       user (session default_session token') =
         Some (if truthy (JStr "1234") then <["id" := JStr "1234"]> u else u)).
Proof.
  exact (session_after_sign_in default_session Auth.expired_token
           (Auth.sample_account None) Auth.sample_profile
           (Auth.sample_world 5000 Auth.FetchRejects)).
Defined.

End AuthSessionFacts.

(** * The chat page: conversations and rendering *)
Module ConversationFacts.
Import JS Layout Conversation.

Ltac run := LayoutFacts.run.

Lemma click_Send_unfold (p : Page) :
  click_Send p = if check p then (Normal None, p) else handleSubmit_until_await p.
Proof. unfold click_Send, bind, get. destruct (check p); reflexivity. Qed.

Lemma handle_Click (p : Page) :
  handle Click p =
    match click_Send p with
    | (Normal _, q) => (Normal tt, q)
    | (Throw e, q) => (Throw e, q)
    end.
Proof. reflexivity. Qed.

(** What one event does to the page. *)
Lemma handle_effects (ev : Event) (p : Page) :
  exists q ms reqs,
    handle ev p = (Normal tt, q) /\
    messages q = messages p ++ ms /\ sent q = sent p ++ reqs /\
    session q = session p /\ (length ms <= 1)%nat.
Proof.
  destruct ev as [|value|result].
  - rewrite handle_Click, click_Send_unfold.
    destruct (check p).
    + exists p, [], []. rewrite !app_nil_r. repeat split. simpl. lia.
    + destruct (nothing_to_submit p) eqn:Hgo.
      * rewrite (LayoutFacts.until_await_rejects p Hgo).
        exists p, [], []. rewrite !app_nil_r. repeat split. simpl. lia.
      * destruct (LayoutFacts.guard_passes_input p Hgo) as (topic & Hin).
        destruct (LayoutFacts.until_await_sends p topic Hin Hgo) as (req & Hrun & _).
        rewrite Hrun. eexists _, [_], [_]. repeat split. simpl. lia.
  - exists (page_after (set_input_value value) p), [], [].
    rewrite !app_nil_r. repeat split. simpl. lia.
  - destruct (LayoutFacts.after_await_settles result p) as (reply & log & Hrun & _).
    unfold handle. rewrite Hrun. eexists _, [_], []. rewrite app_nil_r.
    repeat split. simpl. lia.
Qed.

Lemma handle_all_cons (ev : Event) (evs : list Event) (p : Page) :
  handle_all (ev :: evs) p = handle_all evs (page_after (handle ev) p).
Proof.
  destruct (handle_effects ev p) as (q & ms & reqs & Hrun & _).
  cbn [handle_all]. unfold bind, page_after. rewrite Hrun. reflexivity.
Qed.

(** X11: the conversation log is append-only.  Whatever the user clicks and
    types and whatever the requests settle with, no handler throws, the
    messages and the requests of before are all still there, in order, with at
    most one message more for each event, and the session is not touched. *)
Theorem conversation_only_grows (evs : list Event) (p : Page) :
  exists q ms reqs,
    handle_all evs p = (Normal tt, q) /\
    messages q = messages p ++ ms /\ sent q = sent p ++ reqs /\
    session q = session p /\ (length ms <= length evs)%nat.
Proof.
  revert p. induction evs as [|ev evs IH]; intros p.
  - exists p, [], []. rewrite !app_nil_r. repeat split. simpl. lia.
  - destruct (handle_effects ev p) as (q1 & ms1 & reqs1 & Hrun1 & Hm1 & Hs1 & Hse1 & Hl1).
    destruct (IH q1) as (q2 & ms2 & reqs2 & Hrun2 & Hm2 & Hs2 & Hse2 & Hl2).
    exists q2, (ms1 ++ ms2), (reqs1 ++ reqs2).
    rewrite handle_all_cons. unfold page_after. rewrite Hrun1. cbn [snd].
    rewrite Hrun2, Hm2, Hm1, Hs2, Hs1, Hse2, Hse1, <- !app_assoc, length_app.
    repeat split. simpl. lia.
Qed.

(** X12: [handleSubmit] empties the textarea before it waits, so a second
    call right after the first, with nothing typed in between, stops at the
    guard: it leaves the page as the first call left it, whether or not the
    first call sent a request and whatever the flag says. *)
Theorem resubmit_without_typing_is_noop (p : Page) :
  handleSubmit_until_await (page_after handleSubmit_until_await p)
    = (Normal None, page_after handleSubmit_until_await p).
Proof.
  destruct (nothing_to_submit p) eqn:Hgo.
  - unfold page_after. rewrite (LayoutFacts.until_await_rejects p Hgo). cbn [snd].
    apply LayoutFacts.until_await_rejects, Hgo.
  - destruct (LayoutFacts.guard_passes_input p Hgo) as (topic & Hin).
    destruct (LayoutFacts.until_await_sends p topic Hin Hgo) as (req & Hrun & _).
    unfold page_after. rewrite Hrun. cbn [snd].
    apply LayoutFacts.until_await_rejects. reflexivity.
Qed.

Lemma unreadable_iff (data : jsval) :
  get_prop data "success" = None <->
  unreadable (FetchResolves (JsonResolves data)) = true.
Proof. destruct data; simpl; split; intros H; solve [reflexivity | discriminate]. Qed.

Lemma readable_url (data success : jsval) :
  get_prop data "success" = Some success ->
  exists link, get_prop data "url" = Some link.
Proof. destruct data; simpl; intros H; try discriminate; eauto. Qed.

Lemma success_text_not_try_again (link : jsval) : success_text link <> try_again.
Proof. unfold success_text, success_prefix, try_again. simpl. discriminate. Qed.

(** X13: whatever a request settles with, the handler appends exactly one
    reply and clears the flag, and the reply is of one of three kinds.  It is
    "Something went wrong. Try again!" exactly when [fetch] was rejected, the
    body could not be parsed, or the body was [null]; otherwise it is the
    apology, or the success text around a [url] that is truthy. *)
Theorem replies_are_of_three_kinds (result : FetchResult) (q : Page) :
  exists reply log,
    handleSubmit_after_await result q =
      (Normal tt,
       {| input := input q; check := false;
          messages := messages q ++ [mkMessage ai reply];
          session := session q; sent := sent q;
          console := console q ++ log |}) /\
    (reply = "Something went wrong. Try again!" <-> unreadable result = true) /\
    (reply = "Something went wrong. Try again!" \/
     reply = "Sorry, I couldn’t generate your slides." \/
     exists data link,
       result = FetchResolves (JsonResolves data) /\
       get_prop data "url" = Some link /\ truthy link = true /\
       reply = success_text link).
Proof.
  destruct (unreadable result) eqn:Hun.
  - assert (Hrun : exists log,
               handleSubmit_after_await result q =
                 (Normal tt,
                  {| input := input q; check := false;
                     messages := messages q ++ [mkMessage ai try_again];
                     session := session q; sent := sent q;
                     console := console q ++ log |})).
    { destruct result as [|[|data]]; [| |destruct data; try discriminate]; run;
        eexists; rewrite <- ?app_assoc; reflexivity. }
    destruct Hrun as (log & Hrun). exists try_again, log.
    split; [exact Hrun|]. split; [split; reflexivity | left; reflexivity].
  - destruct result as [|[|data]]; try discriminate.
    destruct (get_prop data "success") as [success|] eqn:Hs.
    2:{ apply unreadable_iff in Hs. congruence. }
    destruct (readable_url data success Hs) as (link & Hl).
    eexists _, _. split; [apply (LayoutFacts.after_await_parsed data success link q Hs Hl)|].
    destruct (truthy success) eqn:Hts, (truthy link) eqn:Htl; cbn [andb]; split;
      try (split; [intros H; try discriminate H;
                   exfalso; exact (success_text_not_try_again link H)
                  | discriminate]);
      try (right; left; reflexivity).
    right. right. exists data, link. repeat split; assumption.
Qed.

(** ** Turn-taking *)

Lemma turns_snoc (ms : list Message) (m : Message) :
  turns (ms ++ [m]) = turn (turns ms) m.
Proof. unfold turns. rewrite fold_left_app. reflexivity. Qed.

Lemma from_user_snoc (ms : list Message) (m : Message) :
  length (List.filter from_user (ms ++ [m])) =
    (length (List.filter from_user ms) + (if from_user m then 1 else 0))%nat.
Proof.
  rewrite List.filter_app, length_app. simpl. destruct (from_user m); reflexivity.
Qed.

(** In a conversation that alternates, replies and messages of the user
    pair up. *)
Lemma turns_length (ms : list Message) (due : bool) :
  turns ms = Some due ->
  (length ms + (if due then 1 else 0) = 2 * length (List.filter from_user ms))%nat.
Proof.
  revert due. induction ms as [|m ms IH] using rev_ind; intros due Hturns.
  - injection Hturns as <-. reflexivity.
  - rewrite turns_snoc in Hturns. rewrite from_user_snoc, length_app.
    destruct (turns ms) as [[|]|]; try discriminate;
      specialize (IH _ eq_refl); unfold turn, from_user in *;
      destruct (sender m); try discriminate;
      injection Hturns as <-; simpl in *; lia.
Qed.

Lemma handle_keeps_in_step (ev : Event) (p : Page) :
  (if is_Settled ev then check p else true) = true ->
  in_step p -> in_step (page_after (handle ev) p).
Proof.
  intros Horder [Hturns Hcount]. unfold in_step, page_after.
  destruct ev as [|value|result].
  - rewrite handle_Click, click_Send_unfold.
    destruct (check p) eqn:Hc.
    + cbn [snd]. rewrite Hc. split; [exact Hturns | exact Hcount].
    + destruct (nothing_to_submit p) eqn:Hgo.
      * rewrite (LayoutFacts.until_await_rejects p Hgo). cbn [snd].
        split; [congruence | exact Hcount].
      * destruct (LayoutFacts.guard_passes_input p Hgo) as (topic & Hin).
        destruct (LayoutFacts.until_await_sends p topic Hin Hgo) as (req & Hrun & _).
        rewrite Hrun. cbn [snd]. split; cbn [messages check sent].
        -- rewrite turns_snoc, Hturns. reflexivity.
        -- rewrite from_user_snoc, length_app, Hcount. reflexivity.
  - split; [exact Hturns | exact Hcount].
  - cbn [is_Settled] in Horder.
    destruct (LayoutFacts.after_await_settles result p) as (reply & log & Hrun & _).
    unfold handle. rewrite Hrun. cbn [snd]. split; cbn [messages check sent].
    + rewrite turns_snoc, Hturns, Horder. reflexivity.
    + rewrite from_user_snoc, Hcount. simpl. lia.
Qed.

(** X14: on a page that starts with nothing said and nothing sent, and on
    which a request settles only while one is out, the conversation keeps in
    step through everything the user clicks and types: user messages and
    replies alternate, beginning with the user; the last message is the
    user's, still waiting for its reply, exactly while the in-flight flag is
    set; and there are as many user messages as requests sent. *)
Theorem conversation_alternates (evs : list Event) (p : Page) :
  fresh p ->
  in_order evs p = true ->
  turns (messages (page_after (handle_all evs) p))
    = Some (check (page_after (handle_all evs) p)) /\
  length (List.filter from_user (messages (page_after (handle_all evs) p)))
    = length (sent (page_after (handle_all evs) p)) /\
  (length (messages (page_after (handle_all evs) p))
     + (if check (page_after (handle_all evs) p) then 1 else 0)
   = 2 * length (sent (page_after (handle_all evs) p)))%nat.
Proof.
  intros (Hc & Hm & Hs) Horder.
  assert (Hstep : in_step (page_after (handle_all evs) p)).
  { assert (Hstart : in_step p).
    { unfold in_step. rewrite Hm, Hs, Hc. split; reflexivity. }
    clear Hc Hm Hs. revert p Horder Hstart.
    induction evs as [|ev evs IH]; intros p Horder Hstart.
    - exact Hstart.
    - cbn [in_order] in Horder. apply andb_prop in Horder as [Hev Hrest].
      unfold page_after at 1. rewrite handle_all_cons.
      apply (IH _ Hrest). apply handle_keeps_in_step; assumption. }
  destruct Hstep as [Hturns Hcount]. split; [exact Hturns|]. split; [exact Hcount|].
  rewrite <- Hcount. apply turns_length, Hturns.
Qed.

Lemma conversation_alternates_witness :
  turns (messages (page_after
           (handle_all [Click; Click; Settled FetchRejects; Typing "Statistics"; Click])
           idle_page))
    = Some (check (page_after
           (handle_all [Click; Click; Settled FetchRejects; Typing "Statistics"; Click])
           idle_page)) /\
  length (List.filter from_user (messages (page_after
           (handle_all [Click; Click; Settled FetchRejects; Typing "Statistics"; Click])
           idle_page)))
    = length (sent (page_after
           (handle_all [Click; Click; Settled FetchRejects; Typing "Statistics"; Click])
           idle_page)) /\
  (length (messages (page_after
           (handle_all [Click; Click; Settled FetchRejects; Typing "Statistics"; Click])
           idle_page))
     + (if check (page_after
           (handle_all [Click; Click; Settled FetchRejects; Typing "Statistics"; Click])
           idle_page) then 1 else 0)
   = 2 * length (sent (page_after
           (handle_all [Click; Click; Settled FetchRejects; Typing "Statistics"; Click])
           idle_page)))%nat.
Proof.
  apply (conversation_alternates
           [Click; Click; Settled FetchRejects; Typing "Statistics"; Click] idle_page).
  - repeat split.
  - vm_compute. reflexivity.
Defined.

End ConversationFacts.

(** * Rendering and blank topics *)
Module RenderFacts.
Import JS Layout Conversation.

Lemma line_terminator_of_prefix (c : ascii) (g post : string) :
  line_terminator (String c (g +:+ String ")" post)) = 0%nat ->
  line_terminator (String c g) = 0%nat.
Proof.
  destruct g as [|c2 [|c3 g]]; simpl.
  - destruct c as [[] [] [] [] [] [] [] []]; intros H; solve [reflexivity | exact H].
  - destruct c as [[] [] [] [] [] [] [] []]; intros H;
      try solve [reflexivity | exact H];
      destruct c2 as [[] [] [] [] [] [] [] []]; solve [reflexivity | exact H].
  - intros H. exact H.
Qed.

(** What the lazy group captures ends at the first closing parenthesis. *)
Lemma lazy_group_sound (s g : string) :
  lazy_group s = Some g ->
  closes_only_at_end g = true /\ exists post, s = g +:+ String ")" post.
Proof.
  revert g. induction s as [|c s IH]; intros g Hgroup; [discriminate|].
  cbn [lazy_group] in Hgroup.
  destruct (Ascii.eqb c ")") eqn:Hc.
  - injection Hgroup as <-. apply Ascii.eqb_eq in Hc. subst c.
    split; [reflexivity | exists s; reflexivity].
  - destruct (line_terminator (String c s)) eqn:Hlt; [|discriminate].
    destruct (lazy_group s) as [g'|]; [|discriminate].
    injection Hgroup as <-.
    destruct (IH g' eq_refl) as (Hok & post & ->).
    split; [|exists post; reflexivity].
    cbn [closes_only_at_end]. rewrite Hc, Hok.
    rewrite (line_terminator_of_prefix c g' post Hlt). reflexivity.
Qed.

Lemma match_paren_sound (s g : string) :
  match_paren s = Some g ->
  closes_only_at_end g = true /\
  exists pre post, s = pre +:+ String "(" (g +:+ String ")" post).
Proof.
  induction s as [|c s IH]; intros Hmatch; [discriminate|].
  cbn [match_paren] in Hmatch.
  assert (Hlater : match_paren s = Some g ->
            closes_only_at_end g = true /\
            exists pre post, String c s = pre +:+ String "(" (g +:+ String ")" post)).
  { intros H. destruct (IH H) as (Hok & pre & post & ->).
    split; [exact Hok | exists (String c pre), post; reflexivity]. }
  destruct (Ascii.eqb c "(") eqn:Hc; [|exact (Hlater Hmatch)].
  apply Ascii.eqb_eq in Hc. subst c.
  destruct (lazy_group s) as [g'|] eqn:Hgroup; [|exact (Hlater Hmatch)].
  injection Hmatch as <-.
  destruct (lazy_group_sound s g' Hgroup) as (Hok & post & ->).
  split; [exact Hok | exists "", post; reflexivity].
Qed.

(** X15: a message is rendered as a link only when its text starts with the
    phrase of a success reply, and the address of the link is never empty: it
    is "#", or it stands in the text between an opening parenthesis and the
    next closing one, with no line terminator in it. *)
Theorem anchors_come_from_the_text (msg : Message) (href : string) :
  render msg = Anchor href ->
  startsWith (text msg) "Here’s your Google Slides presentation" = true /\
  href <> "" /\
  (href = "#" \/
   closes_only_at_end href = true /\
   exists pre post, text msg = pre +:+ "(" +:+ href +:+ ")" +:+ post).
Proof.
  unfold render.
  destruct (startsWith (text msg) "Here’s your Google Slides presentation");
    [|discriminate].
  intros Hrender. split; [reflexivity|].
  destruct (match_paren (text msg)) as [group|] eqn:Hmatch.
  - destruct (String.eqb_spec group "") as [Hempty|Hfull].
    + injection Hrender as <-. split; [discriminate | left; reflexivity].
    + injection Hrender as <-. split; [exact Hfull|]. right.
      exact (match_paren_sound (text msg) group Hmatch).
  - injection Hrender as <-. split; [discriminate | left; reflexivity].
Qed.

Lemma anchors_come_from_the_text_witness :
  startsWith (text (mkMessage user "Here’s your Google Slides presentation (x) (y)"))
    "Here’s your Google Slides presentation" = true /\
  "x" <> "" /\
  ("x" = "#" \/
   closes_only_at_end "x" = true /\
   exists pre post,
     text (mkMessage user "Here’s your Google Slides presentation (x) (y)")
       = pre +:+ "(" +:+ "x" +:+ ")" +:+ post).
Proof.
  apply (anchors_come_from_the_text
           (mkMessage user "Here’s your Google Slides presentation (x) (y)") "x").
  vm_compute. reflexivity.
Defined.

Lemma ascii_blank_is_white_space (c : ascii) (s : string) :
  ascii_blank c = true -> white_space (String c s) = 1%nat.
Proof.
  destruct c as [[] [] [] [] [] [] [] []]; intros H;
    solve [discriminate H | reflexivity].
Qed.

Lemma trimStart_fuel_all_blank (s : string) (fuel : nat) :
  all_blank s = true -> (String.length s <= fuel)%nat -> trimStart_fuel fuel s = "".
Proof.
  revert fuel. induction s as [|c s IH]; intros fuel Hblank Hfuel.
  - destruct fuel; reflexivity.
  - cbn [all_blank] in Hblank. apply andb_prop in Hblank as [Hc Hs].
    destruct fuel as [|fuel]; [simpl in Hfuel; lia|].
    cbn [trimStart_fuel]. rewrite (ascii_blank_is_white_space c s Hc).
    cbn [drop_bytes]. apply IH; [exact Hs | simpl in Hfuel; lia].
Qed.

Lemma trim_all_blank (s : string) : all_blank s = true -> trim s = "".
Proof.
  intros Hblank. unfold trim, trimStart.
  rewrite (trimStart_fuel_all_blank s _ Hblank) by lia. reflexivity.
Qed.

(** X16: a topic made of spaces, tabs and line breaks only, however long, is
    never sent: [handleSubmit] leaves the page as it is, with any token. *)
Theorem blank_topic_is_never_sent (p : Page) (topic : string) (result : FetchResult) :
  input p = Some topic ->
  all_blank topic = true ->
  handleSubmit result p = (Normal tt, p).
Proof.
  intros Hin Hblank.
  assert (Hstop : nothing_to_submit p = true).
  { unfold nothing_to_submit. rewrite Hin, (trim_all_blank topic Hblank). reflexivity. }
  rewrite LayoutFacts.handleSubmit_unfold, (LayoutFacts.until_await_rejects p Hstop).
  reflexivity.
Qed.

Lemma blank_topic_is_never_sent_witness :
  handleSubmit (FetchResolves (JsonResolves (generated "https://slides.example/abc")))
    blank_page = (Normal tt, blank_page).
Proof.
  apply (blank_topic_is_never_sent blank_page "   ").
  - reflexivity.
  - reflexivity.
Defined.

Lemma trimStart_no_white_space (s : string) :
  white_space s = 0%nat -> trimStart s = s.
Proof.
  intros Hws. unfold trimStart. destruct s as [|c s]; [reflexivity|].
  cbn [String.length trimStart_fuel]. rewrite Hws. reflexivity.
Qed.

(** X17: a topic that begins with a character that is not white space is
    sent as it was typed whenever a token is there, white space at its end
    included: the text of the user's message and the [topic] of the request
    are the value of the textarea, not its trimmed form. *)
Theorem topic_is_sent_untrimmed (p : Page) (topic : string) :
  input p = Some topic ->
  topic <> "" ->
  white_space topic = 0%nat ->
  truthy (session_accessToken p) = true ->
  exists req q,
    handleSubmit_until_await p = (Normal (Some req), q) /\
    messages q = messages p ++ [mkMessage user topic] /\
    sent q = sent p ++ [req] /\
    body req = [("topic", JStr topic); ("access_token", session_accessToken p)].
Proof.
  intros Hin Hne Hws Htoken.
  assert (Htrim : trim topic <> "").
  { unfold trim. rewrite (trimStart_no_white_space topic Hws).
    destruct topic as [|c s]; [contradiction|].
    cbn [trimEnd]. rewrite (trimStart_no_white_space _ Hws). discriminate. }
  pose proof (LayoutFacts.guard_passes p topic Hin Htrim Htoken) as Hgo.
  destruct (LayoutFacts.until_await_sends p topic Hin Hgo) as (req & Hrun & Hbody).
  eexists _, _. split; [exact Hrun|]. repeat split. exact Hbody.
Qed.

Lemma topic_is_sent_untrimmed_witness :
  exists req q,
    handleSubmit_until_await
      {| input := Some "Rocq   "; check := false; messages := [];
         session := signed_in; sent := []; console := [] |}
      = (Normal (Some req), q) /\
    messages q = [] ++ [mkMessage user "Rocq   "] /\
    sent q = [] ++ [req] /\
    body req = [("topic", JStr "Rocq   "); ("access_token", JStr "tok123")].
Proof.
  apply (topic_is_sent_untrimmed
           {| input := Some "Rocq   "; check := false; messages := [];
              session := signed_in; sent := []; console := [] |} "Rocq   ").
  - reflexivity.
  - discriminate.
  - reflexivity.
  - reflexivity.
Defined.

End RenderFacts.

(** * The pages and their redirects: properties *)
Module PagesFacts.
Import JS Pages.

(** X18: the chat page and its handler agree on who is signed in.  When the
    page does not redirect, a topic that is not blank is sent; when it pushes
    the router to "/signup", [handleSubmit] does nothing, whatever is typed. *)
Theorem redirect_agrees_with_guard (p : Layout.Page) :
  (Layout_effect (Layout.session p) = None ->
   forall topic, Layout.input p = Some topic -> trim topic <> "" ->
     exists req q,
       Layout.handleSubmit_until_await p = (Normal (Some req), q) /\
       Layout.messages q = Layout.messages p ++ [Layout.mkMessage Layout.user topic]) /\
  (Layout_effect (Layout.session p) = Some "/signup" ->
   forall result, Layout.handleSubmit result p = (Normal tt, p)).
Proof.
  assert (Hsame : Layout_effect (Layout.session p) =
                  if negb (truthy (Layout.session_accessToken p))
                  then Some "/signup" else None).
  { unfold Layout_effect, Layout.session_accessToken.
    destruct (Layout.session p); reflexivity. }
  rewrite Hsame. destruct (truthy (Layout.session_accessToken p)) eqn:Htoken; cbn [negb].
  - split; [|discriminate]. intros _ topic Hin Htopic.
    pose proof (LayoutFacts.guard_passes p topic Hin Htopic Htoken) as Hgo.
    destruct (LayoutFacts.until_await_sends p topic Hin Hgo) as (req & Hrun & _).
    eexists _, _. split; [exact Hrun | reflexivity].
  - split; [discriminate|]. intros _ result.
    assert (Hstop : Layout.nothing_to_submit p = true).
    { unfold Layout.nothing_to_submit. destruct (Layout.input p); [|reflexivity].
      rewrite Htoken. apply orb_true_r. }
    rewrite LayoutFacts.handleSubmit_unfold, (LayoutFacts.until_await_rejects p Hstop).
    reflexivity.
Qed.

Lemma redirect_agrees_with_guard_witness :
  (Layout_effect (Layout.session Layout.idle_page) = None ->
   forall topic, Layout.input Layout.idle_page = Some topic -> trim topic <> "" ->
     exists req q,
       Layout.handleSubmit_until_await Layout.idle_page = (Normal (Some req), q) /\
       Layout.messages q =
         Layout.messages Layout.idle_page ++ [Layout.mkMessage Layout.user topic]) /\
  (Layout_effect (Layout.session Layout.idle_page) = Some "/signup" ->
   forall result, Layout.handleSubmit result Layout.idle_page
                  = (Normal tt, Layout.idle_page)).
Proof.
  exact (redirect_agrees_with_guard Layout.idle_page).
Defined.

Lemma follow_rest (routes : string -> option Component) (n : nat) (c : Component)
    (status : Status) (session : option Layout.Session) :
  leaves c status session = None -> follow routes n c status session = c.
Proof. intros Hrest. destruct n; [reflexivity|]. cbn [follow]. rewrite Hrest. reflexivity. Qed.

(** X19: redirects come to rest for a session with an access token and for
    no session.  From the root page the browser ends on the chat page, and
    stays, when the session has a truthy access token; it ends on the sign-up
    page, and stays, when there is no session and the status is not
    "authenticated". *)
Theorem redirects_come_to_rest
    (routes : string -> option Component) (status : Status)
    (session : option Layout.Session) (n : nat) :
  routes "/layout" = Some LayoutPage ->
  routes "/signup" = Some SignupPage ->
  ((exists s, session = Some s /\ truthy (Layout.accessToken s) = true) ->
   follow routes (S n) HomePage status session = LayoutPage /\
   leaves LayoutPage status session = None) /\
  (session = None -> status <> authenticated ->
   follow routes (S n) HomePage status session = SignupPage /\
   leaves SignupPage status session = None).
Proof.
  intros Hlayout Hsignup. split.
  - intros (s & -> & Htoken).
    assert (Hrest : leaves LayoutPage status (Some s) = None).
    { unfold leaves, Layout_effect. rewrite Htoken. reflexivity. }
    split; [|exact Hrest].
    cbn [follow leaves Home]. rewrite Hlayout. apply follow_rest, Hrest.
  - intros -> Hstatus.
    assert (Hrest : leaves SignupPage status None = None).
    { destruct status; [reflexivity | contradiction | reflexivity]. }
    split; [|exact Hrest].
    cbn [follow leaves Home]. rewrite Hsignup. apply follow_rest, Hrest.
Qed.

Lemma redirects_come_to_rest_witness :
  ((exists s, Layout.signed_in = Some s /\ truthy (Layout.accessToken s) = true) ->
   follow app_routes 3 HomePage authenticated Layout.signed_in = LayoutPage /\
   leaves LayoutPage authenticated Layout.signed_in = None) /\
  (Layout.signed_in = None -> authenticated <> authenticated ->
   follow app_routes 3 HomePage authenticated Layout.signed_in = SignupPage /\
   leaves SignupPage authenticated Layout.signed_in = None).
Proof.
  apply (redirects_come_to_rest app_routes authenticated Layout.signed_in 2).
  - reflexivity.
  - reflexivity.
Defined.

(** X20: a session that is authenticated but carries no access token never
    comes to rest: the chat page pushes to "/signup", the sign-up page pushes
    back to "/layout", and so on for as long as the session stays as it is. *)
Theorem session_without_token_bounces
    (routes : string -> option Component) (s : Layout.Session) (n : nat) :
  routes "/layout" = Some LayoutPage ->
  routes "/signup" = Some SignupPage ->
  truthy (Layout.accessToken s) = false ->
  follow routes n LayoutPage authenticated (Some s)
    = (if Nat.even n then LayoutPage else SignupPage) /\
  follow routes n SignupPage authenticated (Some s)
    = (if Nat.even n then SignupPage else LayoutPage) /\
  leaves LayoutPage authenticated (Some s) = Some "/signup" /\
  leaves SignupPage authenticated (Some s) = Some "/layout".
Proof.
  intros Hlayout Hsignup Htoken.
  assert (HL : leaves LayoutPage authenticated (Some s) = Some "/signup").
  { unfold leaves, Layout_effect. rewrite Htoken. reflexivity. }
  assert (HS : leaves SignupPage authenticated (Some s) = Some "/layout")
    by reflexivity.
  assert (Hboth : follow routes n LayoutPage authenticated (Some s)
                    = (if Nat.even n then LayoutPage else SignupPage) /\
                  follow routes n SignupPage authenticated (Some s)
                    = (if Nat.even n then SignupPage else LayoutPage)).
  { induction n as [|n [IHL IHS]]; [split; reflexivity|].
    cbn [follow]. rewrite HL, HS, Hsignup, Hlayout, IHL, IHS.
    rewrite Nat.even_succ, <- Nat.negb_even.
    destruct (Nat.even n); split; reflexivity. }
  destruct Hboth as [H1 H2]. repeat split; assumption.
Qed.

Lemma session_without_token_bounces_witness :
  follow app_routes 5 LayoutPage authenticated (Some {| Layout.accessToken := JStr "" |})
    = (if Nat.even 5 then LayoutPage else SignupPage) /\
  follow app_routes 5 SignupPage authenticated (Some {| Layout.accessToken := JStr "" |})
    = (if Nat.even 5 then SignupPage else LayoutPage) /\
  leaves LayoutPage authenticated (Some {| Layout.accessToken := JStr "" |})
    = Some "/signup" /\
  leaves SignupPage authenticated (Some {| Layout.accessToken := JStr "" |})
    = Some "/layout".
Proof.
  apply (session_without_token_bounces app_routes {| Layout.accessToken := JStr "" |} 5).
  - reflexivity.
  - reflexivity.
  - reflexivity.
Defined.

End PagesFacts.
